(** * Identity store: users, audit events, API tokens, provider tokens

    A shallow embedding of [identity.py]: the four mapped classes, the
    SQLAlchemy session the [Schema] object drives (pending objects,
    autoflush, commit, rollback and reconnect) and the methods of
    [Schema], written as computations in a state-and-exception monad. *)

From Stdlib Require Import ZArith NArith Lia.
From Stdlib.Strings Require Import Ascii Byte.
From stdpp Require Import base list strings.

Local Open Scope string_scope.
Local Open Scope list_scope.

(** ** The mapped classes

    Every class has a [created] column whose default, [datetime.utcnow],
    is evaluated when the row is inserted. *)

Module User.
Record t := mk { discord_id : string; created : Z }.
End User.

Module Event.
Record t := mk { discord_id : string; action : string; created : Z }.
Definition key (e : t) : string * string * Z := (discord_id e, action e, created e).
End Event.

Module ApiToken.
Record t := mk { discord_id : string; token : string; created : Z }.
Definition key (r : t) : string * string := (discord_id r, token r).
End ApiToken.

Module AuthToken.
Record t := mk { discord_id : string; provider : string; token : string; created : Z }.
Definition key (r : t) : string * string * string := (discord_id r, provider r, token r).
End AuthToken.

(** The four tables, rows in insertion order. *)
Record Tables := mkTables {
  users : list User.t;
  events : list Event.t;
  api_tokens : list ApiToken.t;
  auth_tokens : list AuthToken.t
}.

Definition no_tables : Tables := mkTables [] [] [] [].

Definition set_users (l : list User.t) (tb : Tables) : Tables :=
  mkTables l (events tb) (api_tokens tb) (auth_tokens tb).
Definition set_events (l : list Event.t) (tb : Tables) : Tables :=
  mkTables (users tb) l (api_tokens tb) (auth_tokens tb).
Definition set_api_tokens (l : list ApiToken.t) (tb : Tables) : Tables :=
  mkTables (users tb) (events tb) l (auth_tokens tb).
Definition set_auth_tokens (l : list AuthToken.t) (tb : Tables) : Tables :=
  mkTables (users tb) (events tb) (api_tokens tb) l.

(** INSERT of one row, DELETE of an account's rows. *)
Definition add_user (r : User.t) (tb : Tables) : Tables :=
  set_users (users tb ++ [r]) tb.
Definition add_event (r : Event.t) (tb : Tables) : Tables :=
  set_events (events tb ++ [r]) tb.
Definition add_api_token (r : ApiToken.t) (tb : Tables) : Tables :=
  set_api_tokens (api_tokens tb ++ [r]) tb.
Definition add_auth_token (r : AuthToken.t) (tb : Tables) : Tables :=
  set_auth_tokens (auth_tokens tb ++ [r]) tb.

(** An object handed to [session.add] and not yet flushed. *)
Inductive Pending :=
  | NewUser (discord_id : string)
  | NewEvent (discord_id action : string)
  | NewApiToken (discord_id token : string)
  | NewAuthToken (discord_id provider token : string).

(** The exceptions that cross the methods of [Schema].  [IntegrityError]
    and [DataError] are SQLAlchemy [StatementError]s; [InvalidRequestError]
    is what a session answers after a flush failed and nobody rolled it
    back.  [AttributeError] is the duplicate-identity error of
    [create_user], [RuntimeError] the exhausted token generation of
    [create_token], [KeyError] the not-found error of the two lookups. *)
Inductive exn :=
  | IntegrityError
  | DataError
  | InvalidRequestError
  | AttributeError
  | RuntimeError
  | KeyError.

Definition is_StatementError (e : exn) : bool :=
  match e with IntegrityError | DataError => true | _ => false end.

Definition is_IntegrityError (e : exn) : bool :=
  match e with IntegrityError => true | _ => false end.

(** The [Schema] object: the database as last committed, the tables as the
    open transaction sees them, the session's pending objects, whether the
    session's transaction is still usable, the warnings issued so far, and
    how often the clock and the random source have been read. *)
Record Schema := mkSchema {
  database : Tables;
  transaction : Tables;
  session_new : list Pending;
  session_active : bool;
  warnings : list string;
  utcnow_calls : nat;
  urandom_calls : nat
}.

(** [Schema(database_uri)] on a database without rows. *)
Definition init : Schema := mkSchema no_tables no_tables [] true [] 0 0.

(** ** Computations on a [Schema] *)

Inductive outcome (A : Type) :=
  | Return (a : A)
  | Raise (e : exn).
Arguments Return {A} a.
Arguments Raise {A} e.

Definition M (A : Type) : Type := Schema → outcome A * Schema.

Definition ret {A} (a : A) : M A := λ s, (Return a, s).
Definition raise {A} (e : exn) : M A := λ s, (Raise e, s).
Definition bind {A B} (m : M A) (f : A → M B) : M B :=
  λ s, match m s with
       | (Return a, s') => f a s'
       | (Raise e, s') => (Raise e, s')
       end.
(** [try: m except handles e: h e] *)
Definition try_except {A} (m : M A) (handles : exn → bool) (h : exn → M A) : M A :=
  λ s, match m s with
       | (Raise e, s') => if handles e then h e s' else (Raise e, s')
       | r => r
       end.

Declare Scope schema_scope.
Delimit Scope schema_scope with schema.
Notation "x <- m ;; k" := (bind m (λ x, k))
  (at level 100, m at next level, right associativity) : schema_scope.
Notation "m ;; k" := (bind m (λ _, k))
  (at level 100, right associativity) : schema_scope.
Local Open Scope schema_scope.

Definition when (b : bool) (m : M unit) : M unit := if b then m else ret tt.

(** ** [secrets.token_urlsafe]

    [base64.urlsafe_b64encode(token_bytes(nbytes)).rstrip(b'=')]. *)

Definition alphabet : string :=
  "ABCDEFGHIJKLMNOPQRSTUVWXYZabcdefghijklmnopqrstuvwxyz0123456789-_".

Definition b64_digit (n : N) : ascii :=
  default "="%char (String.get (N.to_nat (n mod 64)) alphabet).

Fixpoint urlsafe_b64encode (bs : list byte) : string :=
  match bs with
  | [] => ""
  | [a] =>
      let n := N.shiftl (Byte.to_N a) 16 in
      String (b64_digit (N.shiftr n 18)) (String (b64_digit (N.shiftr n 12)) "==")
  | [a; b] =>
      let n := N.lor (N.shiftl (Byte.to_N a) 16) (N.shiftl (Byte.to_N b) 8) in
      String (b64_digit (N.shiftr n 18)) (String (b64_digit (N.shiftr n 12))
        (String (b64_digit (N.shiftr n 6)) "="))
  | a :: b :: c :: rest =>
      let n := N.lor (N.lor (N.shiftl (Byte.to_N a) 16) (N.shiftl (Byte.to_N b) 8))
                     (Byte.to_N c) in
      String (b64_digit (N.shiftr n 18)) (String (b64_digit (N.shiftr n 12))
        (String (b64_digit (N.shiftr n 6)) (String (b64_digit n)
          (urlsafe_b64encode rest))))
  end.

(** [s.rstrip('=')] *)
Fixpoint rstrip_eq (s : string) : string :=
  match s with
  | EmptyString => EmptyString
  | String c s' =>
      match rstrip_eq s' with
      | EmptyString => if Ascii.eqb c "=" then EmptyString else String c EmptyString
      | t => String c t
      end
  end.

(** The world outside the program: [utcnow n] is the timestamp that the
    [n]-th evaluation of the [created] default stores (at the resolution
    of the column, so two readings may be equal), and [urandom n i] is
    byte [i] of the [n]-th read of the operating system's random source. *)
Class World := {
  utcnow : nat → Z;
  urandom : nat → nat → byte
}.

Section Identity.

Context {world : World}.

Definition token_bytes (nbytes draw : nat) : list byte :=
  urandom draw <$> seq 0 nbytes.

Definition token_of_draw (draw : nat) : string :=
  rstrip_eq (urlsafe_b64encode (token_bytes 48 draw)).

Definition token_urlsafe : M string :=
  λ s, (Return (token_of_draw (urandom_calls s)),
        mkSchema (database s) (transaction s) (session_new s) (session_active s)
                 (warnings s) (utcnow_calls s) (S (urandom_calls s))).

(** ** The storage engine

    [sql_mode='TRADITIONAL']: a value longer than its column is an error,
    not a truncation.  A row whose primary key is already in the table is
    an integrity error. *)

Definition fits (n : nat) (s : string) : bool := bool_decide (String.length s ≤ n)%nat.

Definition insert_row (now : Z) (o : Pending) (tb : Tables) : Tables + exn :=
  match o with
  | NewUser id =>
      if negb (fits 32 id) then inr DataError
      else if decide (id ∈ User.discord_id <$> users tb) then inr IntegrityError
      else inl (add_user (User.mk id now) tb)
  | NewEvent id act =>
      if negb (fits 32 id && fits 64 act) then inr DataError
      else if decide ((id, act, now) ∈ Event.key <$> events tb) then inr IntegrityError
      else inl (add_event (Event.mk id act now) tb)
  | NewApiToken id tok =>
      if negb (fits 32 id && fits 64 tok) then inr DataError
      else if decide ((id, tok) ∈ ApiToken.key <$> api_tokens tb) then inr IntegrityError
      else inl (add_api_token (ApiToken.mk id tok now) tb)
  | NewAuthToken id prov tok =>
      if negb (fits 32 id && fits 64 prov && fits 1024 tok) then inr DataError
      else if decide ((id, prov, tok) ∈ AuthToken.key <$> auth_tokens tb)
      then inr IntegrityError
      else inl (add_auth_token (AuthToken.mk id prov tok now) tb)
  end.

(** The INSERTs of one flush, in the order the objects were added; the
    [n]-th clock reading stamps the row.  (SQLAlchemy orders the INSERTs
    of unrelated tables as it sees fit.  The theorems on the methods
    are stated so that they hold whichever row of a flush receives which
    reading: timestamps of rows flushed with others are quantified, and
    the conditions on the clock speak of every reading still to come.) *)
Fixpoint insert_all (l : list Pending) (n : nat) (tb : Tables) : (Tables + exn) * nat :=
  match l with
  | [] => (inl tb, n)
  | o :: l' =>
      match insert_row (utcnow n) o tb with
      | inl tb' => insert_all l' (S n) tb'
      | inr e => (inr e, S n)
      end
  end.

(** ** The session *)

(** [session.add(obj)] *)
Definition session_add (o : Pending) : M unit :=
  λ s, (Return tt,
        mkSchema (database s) (transaction s) (session_new s ++ [o]) (session_active s)
                 (warnings s) (utcnow_calls s) (urandom_calls s)).

(** [session.flush()], also run by every query and bulk delete (autoflush)
    and by [session.commit()].  A failing INSERT rolls the transaction
    back, expunges the pending objects and leaves the session unusable
    until [session.rollback()]. *)
Definition session_flush : M unit :=
  λ s, if session_active s then
         match insert_all (session_new s) (utcnow_calls s) (transaction s) with
         | (inl tb, n) =>
             (Return tt, mkSchema (database s) tb [] true (warnings s) n (urandom_calls s))
         | (inr e, n) =>
             (Raise e, mkSchema (database s) (database s) [] false (warnings s) n
                                (urandom_calls s))
         end
       else (Raise InvalidRequestError, s).

(** [session.commit()] *)
Definition session_commit : M unit :=
  session_flush ;;
  λ s, (Return tt, mkSchema (transaction s) (transaction s) (session_new s)
                            (session_active s) (warnings s) (utcnow_calls s)
                            (urandom_calls s)).

(** [session.rollback()] followed by [Schema.connect()]: a new session on
    a new connection. *)
Definition rollback_and_connect : M unit :=
  λ s, (Return tt, mkSchema (database s) (database s) [] true (warnings s)
                            (utcnow_calls s) (urandom_calls s)).

(** [warn(msg)] *)
Definition warn (msg : string) : M unit :=
  λ s, (Return tt, mkSchema (database s) (transaction s) (session_new s)
                            (session_active s) (warnings s ++ [msg]) (utcnow_calls s)
                            (urandom_calls s)).

(** Iterating [self.query(cls).filter_by(...)]: autoflush, then SELECT in
    the open transaction.  [Schema.query] guards only the construction of
    the query object, which touches no table, so its handler never runs
    and a failing autoflush leaves here unhandled. *)
Definition query_all {A} (table : Tables → list A) (P : A → Prop)
    `{∀ x, Decision (P x)} : M (list A) :=
  session_flush ;; λ s, (Return (filter P (table (transaction s))), s).

(** [self.query(cls).filter_by(...).delete()]: autoflush, then DELETE in
    the open transaction. *)
Definition query_delete {A} (table : Tables → list A)
    (set_table : list A → Tables → Tables) (P : A → Prop)
    `{∀ x, Decision (P x)} : M unit :=
  session_flush ;;
  λ s, (Return tt,
        mkSchema (database s)
                 (set_table (filter (λ x, ¬ P x) (table (transaction s))) (transaction s))
                 (session_new s) (session_active s) (warnings s) (utcnow_calls s)
                 (urandom_calls s)).

(** ** The methods of [Schema] *)

Definition commit : M unit :=
  try_except session_commit is_StatementError
    (λ exception, rollback_and_connect ;; raise exception).

Definition register_event (discord_id action : string) (commit_ : bool) : M unit :=
  session_add (NewEvent discord_id action) ;;
  when commit_
    (try_except commit is_IntegrityError
       (λ _, warn "Attempting to commit events too quickly!")).

Definition revoke_token (discord_id : string) (commit_ : bool) : M unit :=
  query_delete api_tokens set_api_tokens (λ r, ApiToken.discord_id r = discord_id) ;;
  register_event discord_id "TOKEN_REVOKE" commit_ ;;
  when commit_ commit.

(** The loop of [create_token]: [n] iterations are left; the result is
    the first candidate that no row of [api_tokens] carries, or [None]
    when the loop runs out. *)
Fixpoint fresh_token (n : nat) : M (option string) :=
  match n with
  | O => ret None
  | S n' =>
      new_token <- token_urlsafe ;;
      results <- query_all api_tokens (λ r, ApiToken.token r = new_token) ;;
      match results with
      | _ :: _ => fresh_token n'
      | [] => ret (Some new_token)
      end
  end.

Definition create_token (discord_id : string) (commit_ : bool) : M unit :=
  token <- fresh_token (length (seq 1 99)) ;;
  match token with
  | None => raise RuntimeError
  | Some token =>
      session_add (NewApiToken discord_id token) ;;
      register_event discord_id "TOKEN_CREATE" commit_ ;;
      when commit_ commit
  end.

Definition regenerate_token (discord_id : string) (commit_ : bool) : M unit :=
  revoke_token discord_id false ;;
  create_token discord_id false ;;
  when commit_ commit.

Definition create_user (discord_id : string) (generate_token commit_ : bool) : M unit :=
  session_add (NewUser discord_id) ;;
  register_event discord_id "USER_CREATE" commit_ ;;
  when generate_token (regenerate_token discord_id false) ;;
  when commit_
    (try_except commit is_IntegrityError (λ _, raise AttributeError)).

Definition ensure_user (discord_id : string) (generate_token commit_ : bool) : M unit :=
  users_ <- query_all users (λ r, User.discord_id r = discord_id) ;;
  match users_ with
  | [] => create_user discord_id generate_token commit_
  | _ :: _ => ret tt
  end.

Definition delete_user (discord_id : string) (commit_ : bool) : M unit :=
  query_delete users set_users (λ r, User.discord_id r = discord_id) ;;
  register_event discord_id "USER_DELETE" commit_ ;;
  when commit_ commit.

Definition get_api_user (token : string) : M string :=
  results <- query_all api_tokens (λ r, ApiToken.token r = token) ;;
  match results with
  | r :: _ => ret (ApiToken.discord_id r)
  | [] => raise KeyError
  end.

Definition get_api_token (discord_id : string) : M string :=
  results <- query_all api_tokens (λ r, ApiToken.discord_id r = discord_id) ;;
  match results with
  | r :: _ => ret (ApiToken.token r)
  | [] => raise KeyError
  end.

Definition set_auth_discord (discord_id discord_token : string) (commit_ : bool) : M unit :=
  query_delete auth_tokens set_auth_tokens (λ r, AuthToken.discord_id r = discord_id) ;;
  session_add (NewAuthToken discord_id "DISCORD" discord_token) ;;
  register_event discord_id "AUTHENTICATE_DISCORD" false ;;
  when commit_ commit.

(** ** States and environments the statements speak about *)

(** Between two calls that committed: nothing pending, nothing flushed
    and uncommitted, the session usable. *)
Definition clean (s : Schema) : Prop :=
  session_active s = true ∧ session_new s = [] ∧ transaction s = database s.

(** An account ID that fits its column. *)
Definition valid_id (discord_id : string) : Prop := (String.length discord_id ≤ 32)%nat.

Definition user_rows (discord_id : string) (tb : Tables) : list User.t :=
  filter (λ r, User.discord_id r = discord_id) (users tb).

Definition token_rows (discord_id : string) (tb : Tables) : list ApiToken.t :=
  filter (λ r, ApiToken.discord_id r = discord_id) (api_tokens tb).



(** The tables after DELETE of an account's rows. *)
Definition without_tokens (discord_id : string) (tb : Tables) : Tables :=
  set_api_tokens (filter (λ r, ¬ ApiToken.discord_id r = discord_id) (api_tokens tb)) tb.
Definition without_auth (discord_id : string) (tb : Tables) : Tables :=
  set_auth_tokens (filter (λ r, ¬ AuthToken.discord_id r = discord_id) (auth_tokens tb)) tb.

(** The tables after the INSERTs of [create_user], of [revoke_token], of
    [create_token] and of [set_auth_discord], when the clock has been read
    [n] times before. *)
Definition created_user (discord_id : string) (n : nat) (tb : Tables) : Tables :=
  add_event (Event.mk discord_id "USER_CREATE" (utcnow (S n)))
    (add_user (User.mk discord_id (utcnow n)) tb).
Definition revoked (discord_id : string) (n : nat) (tb : Tables) : Tables :=
  add_event (Event.mk discord_id "TOKEN_REVOKE" (utcnow n)) (without_tokens discord_id tb).
Definition issued (discord_id token : string) (n : nat) (tb : Tables) : Tables :=
  add_event (Event.mk discord_id "TOKEN_CREATE" (utcnow (S n)))
    (add_api_token (ApiToken.mk discord_id token (utcnow n)) tb).
Definition authenticated (discord_id token : string) (n : nat) (tb : Tables) : Tables :=
  add_event (Event.mk discord_id "AUTHENTICATE_DISCORD" (utcnow (S n)))
    (add_auth_token (AuthToken.mk discord_id "DISCORD" token (utcnow n))
       (without_auth discord_id tb)).

(** None of the account's stored audit events bears a timestamp that the
    clock returns from now on. *)
Definition no_clash (discord_id : string) (s : Schema) : Prop :=
  ∀ e k, e ∈ events (database s) → Event.discord_id e = discord_id →
         (utcnow_calls s ≤ k)%nat → Event.created e ≠ utcnow k.

(** From now on no two readings of the clock are equal. *)
Definition ticking (s : Schema) : Prop :=
  ∀ m n, (utcnow_calls s ≤ m)%nat → (m < n)%nat → utcnow m ≠ utcnow n.

(** A provider token that fits its column. *)
Definition valid_auth_token (token : string) : Prop := (String.length token ≤ 1024)%nat.

(** The value a row of [api_tokens] carries. *)
Definition stored_tokens (tb : Tables) : list string := ApiToken.token <$> api_tokens tb.


(** What the loop of [create_token] computes on a session with nothing
    to flush: the first of [n] candidates, drawn from read [d] on, that is
    not in [stored], together with the number of reads made. *)
Fixpoint first_fresh (n d : nat) (stored : list string) : option string * nat :=
  match n with
  | O => (None, d)
  | S n' =>
      if decide (token_of_draw d ∈ stored) then first_fresh n' (S d) stored
      else (Some (token_of_draw d), S d)
  end.


(** A string without the padding character of base64. *)
Fixpoint no_pad (s : string) : Prop :=
  match s with
  | EmptyString => True
  | String c s' => c ≠ "="%char ∧ no_pad s'
  end.

(** ** Calls, and what every call keeps *)

(** The calls a user of [Schema] can make. *)
Inductive call :=
  | CreateUser (discord_id : string) (generate_token commit_ : bool)
  | EnsureUser (discord_id : string) (generate_token commit_ : bool)
  | DeleteUser (discord_id : string) (commit_ : bool)
  | CreateToken (discord_id : string) (commit_ : bool)
  | RevokeToken (discord_id : string) (commit_ : bool)
  | RegenerateToken (discord_id : string) (commit_ : bool)
  | RegisterEvent (discord_id action : string) (commit_ : bool)
  | GetApiUser (token : string)
  | GetApiToken (discord_id : string)
  | SetAuthDiscord (discord_id discord_token : string) (commit_ : bool)
  | Commit.

(** The [Schema] object after a call, whatever the call answered. *)
Definition after (c : call) (s : Schema) : Schema :=
  match c with
  | CreateUser discord_id generate_token commit_ =>
      (create_user discord_id generate_token commit_ s).2
  | EnsureUser discord_id generate_token commit_ =>
      (ensure_user discord_id generate_token commit_ s).2
  | DeleteUser discord_id commit_ => (delete_user discord_id commit_ s).2
  | CreateToken discord_id commit_ => (create_token discord_id commit_ s).2
  | RevokeToken discord_id commit_ => (revoke_token discord_id commit_ s).2
  | RegenerateToken discord_id commit_ => (regenerate_token discord_id commit_ s).2
  | RegisterEvent discord_id action commit_ => (register_event discord_id action commit_ s).2
  | GetApiUser token => (get_api_user token s).2
  | GetApiToken discord_id => (get_api_token discord_id s).2
  | SetAuthDiscord discord_id discord_token commit_ =>
      (set_auth_discord discord_id discord_token commit_ s).2
  | Commit => (commit s).2
  end.

(** Whether the call is asked to commit. *)
Definition commits (c : call) : bool :=
  match c with
  | CreateUser _ _ commit_ | EnsureUser _ _ commit_ | DeleteUser _ commit_
  | CreateToken _ commit_ | RevokeToken _ commit_ | RegenerateToken _ commit_
  | RegisterEvent _ _ commit_ | SetAuthDiscord _ _ commit_ => commit_
  | GetApiUser _ | GetApiToken _ => false
  | Commit => true
  end.

(** The [Schema] object after a sequence of calls. *)
Definition after_all (cs : list call) (s : Schema) : Schema :=
  foldl (λ s c, after c s) s cs.

(** The token values of the [ApiToken] objects among pending objects. *)
Fixpoint pending_tokens (l : list Pending) : list string :=
  match l with
  | [] => []
  | NewApiToken _ token :: l' => token :: pending_tokens l'
  | _ :: l' => pending_tokens l'
  end.

(** No token value occurs twice: not in the database, and not among the
    rows of the open transaction together with the tokens that wait to be
    flushed. *)
Definition tokens_distinct (s : Schema) : Prop :=
  NoDup (stored_tokens (database s)) ∧
  NoDup (stored_tokens (transaction s) ++ pending_tokens (session_new s)).

(** The committed audit trail starts with [trail], and the open
    transaction starts with the committed trail. *)
Definition trail_kept (trail : list Event.t) (s : Schema) : Prop :=
  trail `prefix_of` events (database s) ∧
  events (database s) `prefix_of` events (transaction s).

(** A property of the [Schema] object that every step of the session
    keeps, apart from the commit: adding an object (a token only when it
    is not stored and nothing else waits), a flush, the rollback with
    reconnect, a warning, a draw, and each of the three DELETEs. *)
Record stable (I : Schema → Prop) : Prop := {
  stable_add o s :
    I s →
    (∀ discord_id token, o = NewApiToken discord_id token →
       session_new s = [] ∧ token ∉ stored_tokens (transaction s)) →
    I (session_add o s).2;
  stable_flush s : I s → I (session_flush s).2;
  stable_rollback s : I s → I (rollback_and_connect s).2;
  stable_warn msg s : I s → I (warn msg s).2;
  stable_draw s : I s → I (token_urlsafe s).2;
  stable_delete_users discord_id s :
    I s → session_new s = [] →
    I (mkSchema (database s)
         (set_users (filter (λ r, ¬ User.discord_id r = discord_id)
                       (users (transaction s))) (transaction s))
         (session_new s) (session_active s) (warnings s) (utcnow_calls s)
         (urandom_calls s));
  stable_delete_tokens discord_id s :
    I s → session_new s = [] →
    I (mkSchema (database s)
         (set_api_tokens (filter (λ r, ¬ ApiToken.discord_id r = discord_id)
                            (api_tokens (transaction s))) (transaction s))
         (session_new s) (session_active s) (warnings s) (utcnow_calls s)
         (urandom_calls s));
  stable_delete_auth discord_id s :
    I s → session_new s = [] →
    I (mkSchema (database s)
         (set_auth_tokens (filter (λ r, ¬ AuthToken.discord_id r = discord_id)
                             (auth_tokens (transaction s))) (transaction s))
         (session_new s) (session_active s) (warnings s) (utcnow_calls s)
         (urandom_calls s))
}.

(** A property that the commit of a flushed transaction keeps. *)
Definition stable_commit (I : Schema → Prop) : Prop :=
  ∀ s, I s → session_new s = [] →
       I (mkSchema (transaction s) (transaction s) (session_new s) (session_active s)
                   (warnings s) (utcnow_calls s) (urandom_calls s)).

(** A computation that keeps [I], whatever it answers. *)
Definition keeps {A} (I : Schema → Prop) (m : M A) : Prop := ∀ s, I s → I (m s).2.

End Identity.

Arguments fresh_token : simpl never.
Arguments first_fresh : simpl never.
Arguments token_of_draw : simpl never.
Arguments insert_row : simpl never.
Arguments fits : simpl never.

(** ** Worlds and stores to run the program in *)

(** Byte [i] of read [n] is [n + i] modulo 256, so that the first 256
    reads give different tokens. *)
Definition counting_bytes (n i : nat) : byte :=
  default x00 (Byte.of_N (N.of_nat (n + i) mod 256)).

(** A clock that has moved on whenever it is read. *)
Definition ticking_world : World := {| utcnow := Z.of_nat; urandom := counting_bytes |}.

(** A clock read again and again within one tick of the resolution the
    timestamp is stored with. *)
Definition same_second : World := {| utcnow := λ _, 0%Z; urandom := counting_bytes |}.

(** A clock of one-second resolution that is read twice a second: the
    two rows of one flush get one timestamp, two calls in a row get
    different ones. *)
Definition two_reads_a_second : World :=
  {| utcnow := λ k, Z.of_nat (k / 2); urandom := counting_bytes |}.

(** A random source that returns the same bytes at every read. *)
Definition stuck_random : World := {| utcnow := Z.of_nat; urandom := λ _ _, x00 |}.

(** A store in which account 42 holds a token of another provider and
    account 7 a [DISCORD] token. *)
Definition two_providers : Schema :=
  let tb := mkTables [User.mk "42" 0; User.mk "7" 0] [] []
              [AuthToken.mk "42" "GITHUB" "gh-secret" 0;
               AuthToken.mk "7" "DISCORD" "seven" 0] in
  mkSchema tb tb [] true [] 0 0.

(** * Properties *)

Section Properties.

Context {world : World}.

(** ** The token encoding *)

Lemma b64_digit_no_pad (n : N) : b64_digit n ≠ "="%char.
Proof.
  unfold b64_digit.
  assert (N.to_nat (n mod 64) < 64)%nat as Hlt.
  { pose proof (N.mod_upper_bound n 64). lia. }
  revert Hlt. generalize (N.to_nat (n mod 64)). intros i Hi.
  do 64 (destruct i as [|i]; [vm_compute; discriminate|]). lia.
Qed.

Lemma rstrip_eq_no_pad (s : string) : no_pad s → rstrip_eq s = s.
Proof.
  induction s as [|c s IH]; [done|]. intros [Hc Hs]. cbn.
  rewrite (IH Hs). destruct s; [|done].
  destruct (Ascii.eqb_spec c "="%char); congruence.
Qed.

Lemma urlsafe_b64encode_triples (k : nat) (bs : list byte) :
  length bs = (3 * k)%nat →
  String.length (urlsafe_b64encode bs) = (4 * k)%nat ∧ no_pad (urlsafe_b64encode bs).
Proof.
  revert bs. induction k as [|k IH]; intros bs Hlen.
  - destruct bs; [done|discriminate].
  - destruct bs as [|a [|b [|c rest]]]; try (cbn in Hlen; lia).
    destruct (IH rest) as [Hl Hp]; [cbn in Hlen; lia|].
    cbn [urlsafe_b64encode String.length no_pad]. rewrite Hl.
    split; [lia|]. repeat (split; [apply b64_digit_no_pad|]). exact Hp.
Qed.

Lemma token_of_draw_length (d : nat) : String.length (token_of_draw d) = 64%nat.
Proof.
  unfold token_of_draw.
  destruct (urlsafe_b64encode_triples 16 (token_bytes 48 d)) as [Hl Hp].
  { unfold token_bytes. by rewrite length_fmap, length_seq. }
  by rewrite rstrip_eq_no_pad.
Qed.

Lemma token_of_draw_fits (d : nat) : fits 64 (token_of_draw d) = true.
Proof. unfold fits. rewrite token_of_draw_length. by apply bool_decide_eq_true. Qed.

Lemma first_fresh_fits n d stored token d' :
  first_fresh n d stored = (Some token, d') → fits 64 token = true.
Proof.
  revert d. induction n as [|n IH]; intros d; [done|].
  change (first_fresh (S n) d stored) with
    (if decide (token_of_draw d ∈ stored) then first_fresh n (S d) stored
     else (Some (token_of_draw d), S d)).
  case_decide; [apply IH|]. intros [= <- <-]. apply token_of_draw_fits.
Qed.

Lemma token_of_draw_nonempty (d : nat) : token_of_draw d ≠ "".
Proof.
  intros H. pose proof (token_of_draw_length d) as Hl. rewrite H in Hl. discriminate.
Qed.

(** ** Lists of rows *)

Lemma filter_none {A} (P : A → Prop) `{∀ x, Decision (P x)} (l : list A) :
  (∀ x, x ∈ l → ¬ P x) → filter P l = [].
Proof.
  intros Hno. apply elem_of_nil_inv. intros x [HP Hx]%list_elem_of_filter.
  by apply (Hno x).
Qed.

Lemma filter_all {A} (P : A → Prop) `{∀ x, Decision (P x)} (l : list A) :
  (∀ x, x ∈ l → P x) → filter P l = l.
Proof.
  induction l as [|x l IH]; intros Hall; [done|].
  rewrite filter_cons_True by (apply Hall; left).
  f_equal. apply IH. intros y Hy. apply Hall. by right.
Qed.

(** ** The session *)

Lemma insert_row_error now o tb e :
  insert_row now o tb = inr e → is_StatementError e = true.
Proof.
  destruct o; unfold insert_row; repeat case_match; intros [= <-]; done.
Qed.

Lemma insert_all_error l n tb e m :
  insert_all l n tb = (inr e, m) → is_StatementError e = true.
Proof.
  revert n tb. induction l as [|o l IH]; intros n tb; cbn; [done|].
  destruct (insert_row (utcnow n) o tb) eqn:Hrow; [apply IH|].
  intros [= <- <-]. by eapply insert_row_error.
Qed.

Lemma schema_eta s :
  s = mkSchema (database s) (transaction s) (session_new s) (session_active s)
               (warnings s) (utcnow_calls s) (urandom_calls s).
Proof. by destruct s. Qed.

Lemma session_flush_active s :
  session_active s = true →
  session_flush s =
  match insert_all (session_new s) (utcnow_calls s) (transaction s) with
  | (inl tb, n) =>
      (Return tt, mkSchema (database s) tb [] true (warnings s) n (urandom_calls s))
  | (inr e, n) =>
      (Raise e, mkSchema (database s) (database s) [] false (warnings s) n
                         (urandom_calls s))
  end.
Proof. intros Ha. unfold session_flush. by rewrite Ha. Qed.

Lemma session_flush_idle s :
  session_active s = true → session_new s = [] → session_flush s = (Return tt, s).
Proof.
  intros Ha Hn. rewrite session_flush_active by done. rewrite Hn. cbn.
  rewrite (schema_eta s) at 6. by rewrite Ha, Hn.
Qed.

Lemma query_all_active {A} (table : Tables → list A) (P : A → Prop)
    `{∀ x, Decision (P x)} s :
  session_active s = true →
  query_all table P s =
  match insert_all (session_new s) (utcnow_calls s) (transaction s) with
  | (inl tb, n) =>
      (Return (filter P (table tb)),
       mkSchema (database s) tb [] true (warnings s) n (urandom_calls s))
  | (inr e, n) =>
      (Raise e, mkSchema (database s) (database s) [] false (warnings s) n
                         (urandom_calls s))
  end.
Proof.
  intros Ha. unfold query_all, bind. rewrite session_flush_active by done.
  by destruct (insert_all _ _ _) as [[tb|e] n].
Qed.

Lemma query_all_idle {A} (table : Tables → list A) (P : A → Prop)
    `{∀ x, Decision (P x)} s :
  session_active s = true → session_new s = [] →
  query_all table P s = (Return (filter P (table (transaction s))), s).
Proof.
  intros Ha Hn. unfold query_all, bind. by rewrite session_flush_idle.
Qed.

Lemma query_delete_active {A} (table : Tables → list A) set_table (P : A → Prop)
    `{∀ x, Decision (P x)} s :
  session_active s = true →
  query_delete table set_table P s =
  match insert_all (session_new s) (utcnow_calls s) (transaction s) with
  | (inl tb, n) =>
      (Return tt,
       mkSchema (database s) (set_table (filter (λ x, ¬ P x) (table tb)) tb) [] true
                (warnings s) n (urandom_calls s))
  | (inr e, n) =>
      (Raise e, mkSchema (database s) (database s) [] false (warnings s) n
                         (urandom_calls s))
  end.
Proof.
  intros Ha. unfold query_delete, bind. rewrite session_flush_active by done.
  by destruct (insert_all _ _ _) as [[tb|e] n].
Qed.

Lemma commit_active s :
  session_active s = true →
  commit s =
  match insert_all (session_new s) (utcnow_calls s) (transaction s) with
  | (inl tb, n) => (Return tt, mkSchema tb tb [] true (warnings s) n (urandom_calls s))
  | (inr e, n) =>
      (Raise e, mkSchema (database s) (database s) [] true (warnings s) n
                         (urandom_calls s))
  end.
Proof.
  intros Ha. unfold commit, try_except, session_commit, bind.
  rewrite session_flush_active by done.
  destruct (insert_all _ _ _) as [[tb|e] n] eqn:Hins; [done|].
  cbn. by rewrite (insert_all_error _ _ _ _ _ Hins).
Qed.

Lemma commit_inactive s :
  session_active s = false → commit s = (Raise InvalidRequestError, s).
Proof.
  intros Ha. unfold commit, try_except, session_commit, bind, session_flush.
  by rewrite Ha.
Qed.

(** [register_event] with [commit=True]: the commit flushes everything
    pending together with the event.  An integrity error is answered by a
    warning, after the whole transaction went back to the last commit. *)
Lemma register_event_commit s discord_id action :
  session_active s = true →
  register_event discord_id action true s =
  match insert_all (session_new s ++ [NewEvent discord_id action]) (utcnow_calls s)
                   (transaction s) with
  | (inl tb, n) => (Return tt, mkSchema tb tb [] true (warnings s) n (urandom_calls s))
  | (inr IntegrityError, n) =>
      (Return tt,
       mkSchema (database s) (database s) [] true
                (warnings s ++ ["Attempting to commit events too quickly!"]) n
                (urandom_calls s))
  | (inr e, n) =>
      (Raise e, mkSchema (database s) (database s) [] true (warnings s) n
                         (urandom_calls s))
  end.
Proof.
  intros Ha. unfold register_event, bind, when, try_except, session_add.
  rewrite commit_active by done. cbn.
  destruct (insert_all _ _ _) as [[tb|e] n]; [done|]. by destruct e.
Qed.

(** ** The storage engine *)

Lemma valid_id_fits discord_id : valid_id discord_id → fits 32 discord_id = true.
Proof. intros Hv. by apply bool_decide_eq_true. Qed.

Lemma insert_user_new now discord_id tb :
  valid_id discord_id → discord_id ∉ User.discord_id <$> users tb →
  insert_row now (NewUser discord_id) tb = inl (add_user (User.mk discord_id now) tb).
Proof.
  intros Hv Hnew. unfold insert_row. rewrite valid_id_fits by done. cbn.
  by rewrite decide_False.
Qed.

Lemma insert_user_dup now discord_id tb :
  valid_id discord_id → discord_id ∈ User.discord_id <$> users tb →
  insert_row now (NewUser discord_id) tb = inr IntegrityError.
Proof.
  intros Hv Hin. unfold insert_row. rewrite valid_id_fits by done. cbn.
  by rewrite decide_True.
Qed.

Lemma insert_event_new now discord_id action tb :
  valid_id discord_id → fits 64 action = true →
  (discord_id, action, now) ∉ Event.key <$> events tb →
  insert_row now (NewEvent discord_id action) tb =
  inl (add_event (Event.mk discord_id action now) tb).
Proof.
  intros Hv Ha Hnew. unfold insert_row. rewrite valid_id_fits, Ha by done. cbn.
  by rewrite decide_False.
Qed.

Lemma insert_event_dup now discord_id action tb :
  valid_id discord_id → fits 64 action = true →
  (discord_id, action, now) ∈ Event.key <$> events tb →
  insert_row now (NewEvent discord_id action) tb = inr IntegrityError.
Proof.
  intros Hv Ha Hin. unfold insert_row. rewrite valid_id_fits, Ha by done. cbn.
  by rewrite decide_True.
Qed.

Lemma insert_api_token_new now discord_id token tb :
  valid_id discord_id → fits 64 token = true →
  token ∉ stored_tokens tb →
  insert_row now (NewApiToken discord_id token) tb =
  inl (add_api_token (ApiToken.mk discord_id token now) tb).
Proof.
  intros Hv Ht Hnew. unfold insert_row. rewrite valid_id_fits, Ht by done. cbn.
  rewrite decide_False; [done|].
  intros (r & [= Hid Htok] & Hr)%list_elem_of_fmap. apply Hnew.
  apply list_elem_of_fmap. by exists r.
Qed.

Lemma insert_auth_token_new now discord_id provider token tb :
  valid_id discord_id → fits 64 provider = true → fits 1024 token = true →
  (∀ r, r ∈ auth_tokens tb → AuthToken.discord_id r ≠ discord_id) →
  insert_row now (NewAuthToken discord_id provider token) tb =
  inl (add_auth_token (AuthToken.mk discord_id provider token now) tb).
Proof.
  intros Hv Hp Ht Hnew. unfold insert_row. rewrite valid_id_fits, Hp, Ht by done. cbn.
  rewrite decide_False; [done|].
  intros (r & [= Hid _ _] & Hr)%list_elem_of_fmap. by eapply Hnew.
Qed.

(** The key of a new audit event is free when the account's stored
    events do not clash with the clock and the events added since then
    are of other kinds. *)
Lemma event_key_free s discord_id action k added tb :
  no_clash discord_id s → (utcnow_calls s ≤ k)%nat →
  events tb = events (database s) ++ added →
  (∀ e, e ∈ added → Event.action e ≠ action) →
  (discord_id, action, utcnow k) ∉ Event.key <$> events tb.
Proof.
  intros Hno Hk -> Hadded (e & [= Hid Hact Ht] & He)%list_elem_of_fmap.
  apply elem_of_app in He as [He|He].
  - by apply (Hno e k).
  - by apply (Hadded e).
Qed.

(** ** The loop of [create_token] *)

Lemma first_fresh_S n d stored :
  first_fresh (S n) d stored =
  if decide (token_of_draw d ∈ stored) then first_fresh n (S d) stored
  else (Some (token_of_draw d), S d).
Proof. done. Qed.

Lemma filter_token_nil token tb :
  filter (λ r, ApiToken.token r = token) (api_tokens tb) = [] ↔
  token ∉ stored_tokens tb.
Proof.
  unfold stored_tokens. split.
  - intros Hnil (r & -> & Hr)%list_elem_of_fmap.
    assert (r ∈ filter (λ r0, ApiToken.token r0 = ApiToken.token r) (api_tokens tb)) as Hin
      by by apply list_elem_of_filter.
    rewrite Hnil in Hin. by apply elem_of_nil in Hin.
  - intros Hnot. apply filter_none. intros r Hr <-.
    apply Hnot, list_elem_of_fmap. by exists r.
Qed.

Lemma fresh_token_idle n s :
  session_active s = true → session_new s = [] →
  fresh_token n s =
  (Return (first_fresh n (urandom_calls s) (stored_tokens (transaction s))).1,
   mkSchema (database s) (transaction s) [] true (warnings s) (utcnow_calls s)
            (first_fresh n (urandom_calls s) (stored_tokens (transaction s))).2).
Proof.
  revert s. induction n as [|n IH]; intros s Ha Hn.
  - unfold fresh_token, ret, first_fresh. cbn. rewrite (schema_eta s) at 1.
    by rewrite Ha, Hn.
  - rewrite first_fresh_S. unfold fresh_token; fold fresh_token.
    unfold bind at 1. unfold token_urlsafe. unfold bind at 1.
    rewrite query_all_idle by done. cbn.
    destruct (filter _ _) as [|r rs] eqn:Hf.
    + apply filter_token_nil in Hf. by rewrite decide_False, Ha, Hn.
    + rewrite decide_True.
      2:{ destruct (decide (token_of_draw (urandom_calls s)
                              ∈ stored_tokens (transaction s))) as [|Hnot]; [done|].
          apply filter_token_nil in Hnot. congruence. }
      by rewrite IH.
Qed.

Lemma fresh_token_active n s tb m :
  session_active s = true →
  insert_all (session_new s) (utcnow_calls s) (transaction s) = (inl tb, m) →
  fresh_token (S n) s =
  (Return (first_fresh (S n) (urandom_calls s) (stored_tokens tb)).1,
   mkSchema (database s) tb [] true (warnings s) m
            (first_fresh (S n) (urandom_calls s) (stored_tokens tb)).2).
Proof.
  intros Ha Hins. rewrite first_fresh_S. unfold fresh_token; fold fresh_token.
  unfold bind at 1. unfold token_urlsafe. unfold bind at 1.
  rewrite query_all_active by done. cbn. rewrite Hins.
  destruct (filter _ _) as [|r rs] eqn:Hf.
  - apply filter_token_nil in Hf. by rewrite decide_False.
  - rewrite decide_True.
    2:{ destruct (decide (token_of_draw (urandom_calls s) ∈ stored_tokens tb))
          as [|Hnot]; [done|].
        apply filter_token_nil in Hnot. congruence. }
    by rewrite fresh_token_idle.
Qed.

Lemma fresh_token_flush_error n s e m :
  session_active s = true →
  insert_all (session_new s) (utcnow_calls s) (transaction s) = (inr e, m) →
  fresh_token (S n) s =
  (Raise e, mkSchema (database s) (database s) [] false (warnings s) m
                     (S (urandom_calls s))).
Proof.
  intros Ha Hins. unfold fresh_token; fold fresh_token.
  unfold bind at 1. unfold token_urlsafe. unfold bind at 1.
  rewrite query_all_active by done. cbn. by rewrite Hins.
Qed.

(** ** The methods, run on a usable session *)

Lemma revoke_token_deferred discord_id s :
  session_active s = true → session_new s = [] →
  revoke_token discord_id false s =
  (Return tt,
   mkSchema (database s) (without_tokens discord_id (transaction s))
            [NewEvent discord_id "TOKEN_REVOKE"] true (warnings s) (utcnow_calls s)
            (urandom_calls s)).
Proof.
  intros Ha Hn. unfold revoke_token, bind.
  rewrite query_delete_active by done. rewrite Hn. cbn. done.
Qed.

Lemma create_token_deferred discord_id s tb m :
  session_active s = true →
  insert_all (session_new s) (utcnow_calls s) (transaction s) = (inl tb, m) →
  create_token discord_id false s =
  match first_fresh 99 (urandom_calls s) (stored_tokens tb) with
  | (Some token, d) =>
      (Return tt,
       mkSchema (database s) tb
                [NewApiToken discord_id token; NewEvent discord_id "TOKEN_CREATE"] true
                (warnings s) m d)
  | (None, d) => (Raise RuntimeError, mkSchema (database s) tb [] true (warnings s) m d)
  end.
Proof.
  intros Ha Hins. unfold create_token, bind.
  change (length (seq 1 99)) with 99%nat.
  rewrite (fresh_token_active _ _ _ _ Ha Hins).
  destruct (first_fresh 99 _ _) as [[token|] d]; done.
Qed.

Lemma insert_token_and_event discord_id token k tb :
  valid_id discord_id → fits 64 token = true → token ∉ stored_tokens tb →
  (discord_id, "TOKEN_CREATE", utcnow (S k)) ∉ Event.key <$> events tb →
  insert_all [NewApiToken discord_id token; NewEvent discord_id "TOKEN_CREATE"] k tb =
  (inl (issued discord_id token k tb), S (S k)).
Proof.
  intros Hv Ht Hnew Hfree. cbn [insert_all].
  rewrite insert_api_token_new by done.
  rewrite insert_event_new by done. done.
Qed.

Lemma insert_user_and_event discord_id k tb :
  valid_id discord_id → discord_id ∉ User.discord_id <$> users tb →
  (discord_id, "USER_CREATE", utcnow (S k)) ∉ Event.key <$> events tb →
  insert_all [NewUser discord_id; NewEvent discord_id "USER_CREATE"] k tb =
  (inl (created_user discord_id k tb), S (S k)).
Proof.
  intros Hv Hnew Hfree. cbn [insert_all].
  rewrite insert_user_new by done.
  rewrite insert_event_new by done. done.
Qed.

Lemma first_fresh_first n d stored :
  token_of_draw d ∉ stored →
  first_fresh (S n) d stored = (Some (token_of_draw d), S d).
Proof. intros Hnew. rewrite first_fresh_S. by rewrite decide_False. Qed.

Lemma first_fresh_Some n d stored token d' :
  first_fresh n d stored = (Some token, d') →
  (token ∉ stored) ∧
  ∃ k, (k < n)%nat ∧ token = token_of_draw (d + k) ∧ d' = S (d + k) ∧
       ∀ j, (j < k)%nat → token_of_draw (d + j) ∈ stored.
Proof.
  revert d. induction n as [|n IH]; intros d; [done|].
  rewrite first_fresh_S. case_decide as Hd.
  - intros (Hnew & k & Hk & -> & -> & Hbefore)%IH. split; [done|].
    exists (S k). repeat split; [lia|f_equal; lia|lia|].
    intros [|j] Hj; [by rewrite Nat.add_0_r|].
    replace (d + S j)%nat with (S d + j)%nat by lia. apply Hbefore. lia.
  - intros [= <- <-]. split; [done|]. exists 0%nat.
    rewrite Nat.add_0_r. repeat split; [lia|]. intros j Hj. lia.
Qed.

Lemma first_fresh_None n d stored :
  (∀ k, (k < n)%nat → token_of_draw (d + k) ∈ stored) →
  first_fresh n d stored = (None, (d + n)%nat).
Proof.
  revert d. induction n as [|n IH]; intros d Hall.
  - unfold first_fresh. by rewrite Nat.add_0_r.
  - rewrite first_fresh_S, decide_True.
    2:{ specialize (Hall 0%nat). rewrite Nat.add_0_r in Hall. apply Hall. lia. }
    rewrite IH; [f_equal; lia|].
    intros k Hk. replace (S d + k)%nat with (d + S k)%nat by lia. apply Hall. lia.
Qed.

Lemma first_fresh_found n d stored k :
  (k < n)%nat → token_of_draw (d + k) ∉ stored →
  ∃ token d', first_fresh n d stored = (Some token, d').
Proof.
  revert d k. induction n as [|n IH]; intros d k Hk Hnew; [lia|].
  rewrite first_fresh_S. case_decide as Hd; [|by eauto].
  destruct k as [|k]; [by rewrite Nat.add_0_r in Hnew|].
  apply (IH (S d) k); [lia|]. by replace (S d + k)%nat with (d + S k)%nat by lia.
Qed.

Lemma stored_tokens_without discord_id tb token :
  token ∈ stored_tokens (without_tokens discord_id tb) → token ∈ stored_tokens tb.
Proof.
  unfold stored_tokens, without_tokens. cbn.
  intros (r & -> & [_ Hr]%list_elem_of_filter)%list_elem_of_fmap.
  by apply list_elem_of_fmap_2.
Qed.

(** [regenerate_token(discord_id, commit=False)] on a session with nothing
    to flush. *)
Lemma regenerate_token_deferred discord_id s :
  session_active s = true → session_new s = [] → valid_id discord_id →
  (discord_id, "TOKEN_REVOKE", utcnow (utcnow_calls s))
    ∉ Event.key <$> events (transaction s) →
  regenerate_token discord_id false s =
  let tb := revoked discord_id (utcnow_calls s) (transaction s) in
  match first_fresh 99 (urandom_calls s) (stored_tokens tb) with
  | (Some token, d) =>
      (Return tt,
       mkSchema (database s) tb
                [NewApiToken discord_id token; NewEvent discord_id "TOKEN_CREATE"] true
                (warnings s) (S (utcnow_calls s)) d)
  | (None, d) =>
      (Raise RuntimeError,
       mkSchema (database s) tb [] true (warnings s) (S (utcnow_calls s)) d)
  end.
Proof.
  intros Ha Hn Hv Hfree. unfold regenerate_token. unfold bind at 1.
  rewrite revoke_token_deferred by done.
  unfold bind at 1.
  erewrite create_token_deferred; [|done|].
  2:{ cbn [session_new utcnow_calls transaction insert_all].
      rewrite insert_event_new; [done|done|done|]. exact Hfree. }
  cbn [database warnings urandom_calls]. fold (revoked discord_id (utcnow_calls s) (transaction s)).
  destruct (first_fresh 99 _ _) as [[token|] d]; done.
Qed.

(** [regenerate_token] between two commits, when the account already has
    a [TOKEN_REVOKE] event with the timestamp of this reading: the event
    queued by [revoke_token] is flushed by the first lookup of
    [create_token], and the integrity error leaves through every caller
    with the session unusable and the database as it was. *)
Lemma regenerate_token_event_clash discord_id commit_ s :
  clean s → valid_id discord_id →
  (discord_id, "TOKEN_REVOKE", utcnow (utcnow_calls s))
    ∈ Event.key <$> events (database s) →
  regenerate_token discord_id commit_ s =
  (Raise IntegrityError,
   mkSchema (database s) (database s) [] false (warnings s) (S (utcnow_calls s))
            (S (urandom_calls s))).
Proof.
  intros (Ha & Hn & Htx) Hv Hkey. unfold regenerate_token. unfold bind at 1.
  rewrite revoke_token_deferred by done. unfold bind at 1.
  unfold create_token. unfold bind at 1.
  change (length (seq 1 99)) with 99%nat.
  erewrite fresh_token_flush_error; [done|done|].
  cbn [session_new utcnow_calls transaction insert_all].
  rewrite insert_event_dup; [done|done|done|]. by rewrite Htx.
Qed.

(** Discharges the side condition that the key of a new audit event is
    free, from [no_clash] and the events added since the call started. *)
Ltac key_free s H :=
  eapply (event_key_free s);
    [exact H | cbn; lia
    | cbn; first [rewrite <- ?app_assoc; reflexivity | symmetry; apply app_nil_r] |];
  intros ? He; cbn in He; rewrite ?elem_of_cons, ?elem_of_nil in He;
  destruct_or?; subst; done.

(** [create_user(discord_id, generate_token, commit=True)] for an account
    that has no [User] row. *)
Lemma create_user_new discord_id generate_token s :
  clean s → valid_id discord_id →
  discord_id ∉ User.discord_id <$> users (database s) →
  no_clash discord_id s →
  create_user discord_id generate_token true s =
  let n := utcnow_calls s in
  let db1 := created_user discord_id n (database s) in
  if generate_token then
    let tb := revoked discord_id (2 + n) db1 in
    match first_fresh 99 (urandom_calls s) (stored_tokens tb) with
    | (Some token, d) =>
        (Return tt,
         mkSchema (issued discord_id token (3 + n) tb) (issued discord_id token (3 + n) tb)
                  [] true (warnings s) (5 + n) d)
    | (None, d) => (Raise RuntimeError, mkSchema db1 tb [] true (warnings s) (3 + n) d)
    end
  else (Return tt, mkSchema db1 db1 [] true (warnings s) (2 + n) (urandom_calls s)).
Proof.
  intros Hclean Hv Hnew Hno.
  destruct s as [db tx new act w n d]. destruct Hclean as (Ha & Hn & Htx).
  cbn in Ha, Hn, Htx, Hnew. subst. set (s := mkSchema db db [] true w n d) in *.
  assert (insert_all [NewUser discord_id; NewEvent discord_id "USER_CREATE"] n db =
          (inl (created_user discord_id n db), S (S n))) as Hins.
  { apply insert_user_and_event; [done..|]. key_free s Hno. }
  unfold create_user. unfold bind at 1. unfold session_add at 1.
  unfold bind at 1. rewrite register_event_commit by done.
  cbn [session_new utcnow_calls transaction database warnings urandom_calls app s].
  rewrite Hins. cbn zeta. destruct generate_token.
  - unfold when at 1. unfold bind at 1.
    rewrite regenerate_token_deferred; [|done..|].
    2:{ cbn [session_new utcnow_calls transaction]. key_free s Hno. }
    cbn [session_new utcnow_calls transaction database warnings urandom_calls].
    destruct (first_fresh 99 d _) as [[token|] d'] eqn:Hff; [|done].
    unfold when, try_except. rewrite commit_active by done.
    cbn [session_new utcnow_calls transaction database warnings urandom_calls].
    rewrite insert_token_and_event;
      [done|done|by eapply first_fresh_fits|by eapply first_fresh_Some|].
    key_free s Hno.
  - unfold when at 1. unfold bind at 1, ret at 1.
    unfold when, try_except. rewrite commit_active by done. done.
Qed.

(** [revoke_token(discord_id, commit=True)] between two commits: either
    the audit event is new and everything is committed, or its key is
    taken, the commit fails, and the DELETE is rolled back with it. *)
Lemma revoke_token_clean discord_id s :
  clean s → valid_id discord_id →
  revoke_token discord_id true s =
  if decide ((discord_id, "TOKEN_REVOKE", utcnow (utcnow_calls s))
               ∈ Event.key <$> events (database s))
  then (Return tt,
        mkSchema (database s) (database s) [] true
                 (warnings s ++ ["Attempting to commit events too quickly!"])
                 (S (utcnow_calls s)) (urandom_calls s))
  else (Return tt,
        mkSchema (revoked discord_id (utcnow_calls s) (database s))
                 (revoked discord_id (utcnow_calls s) (database s)) [] true
                 (warnings s) (S (utcnow_calls s)) (urandom_calls s)).
Proof.
  intros Hclean Hv.
  destruct s as [db tx new act w n d]. destruct Hclean as (Ha & Hn & Htx).
  cbn in Ha, Hn, Htx. subst. cbn [database utcnow_calls warnings urandom_calls].
  unfold revoke_token. unfold bind at 1. rewrite query_delete_active by done.
  cbn [session_new utcnow_calls transaction database warnings urandom_calls insert_all].
  unfold bind at 1. rewrite register_event_commit by done.
  cbn [session_new utcnow_calls transaction database warnings urandom_calls insert_all app].
  fold (without_tokens discord_id db).
  case_decide as Hkey.
  - rewrite insert_event_dup by done.
    unfold when. rewrite commit_active by done. done.
  - rewrite insert_event_new by done.
    unfold when. rewrite commit_active by done. done.
Qed.

(** [set_auth_discord(discord_id, token, commit=True)] between two
    commits.  The DELETE takes every [AuthToken] row of the account,
    whatever its provider. *)
Lemma set_auth_discord_clean discord_id token s :
  clean s → valid_id discord_id → valid_auth_token token →
  set_auth_discord discord_id token true s =
  if decide ((discord_id, "AUTHENTICATE_DISCORD", utcnow (S (utcnow_calls s)))
               ∈ Event.key <$> events (database s))
  then (Raise IntegrityError,
        mkSchema (database s) (database s) [] true (warnings s)
                 (S (S (utcnow_calls s))) (urandom_calls s))
  else (Return tt,
        mkSchema (authenticated discord_id token (utcnow_calls s) (database s))
                 (authenticated discord_id token (utcnow_calls s) (database s)) [] true
                 (warnings s) (S (S (utcnow_calls s))) (urandom_calls s)).
Proof.
  intros Hclean Hv Ht.
  destruct s as [db tx new act w n d]. destruct Hclean as (Ha & Hn & Htx).
  cbn in Ha, Hn, Htx. subst. cbn [database utcnow_calls warnings urandom_calls].
  unfold set_auth_discord. unfold bind at 1. rewrite query_delete_active by done.
  cbn [session_new utcnow_calls transaction database warnings urandom_calls insert_all].
  fold (without_auth discord_id db).
  unfold bind at 1, session_add at 1. unfold bind at 1.
  unfold register_event. unfold bind at 1, session_add at 1, when at 1, ret at 1.
  unfold when. rewrite commit_active by done.
  cbn [session_new utcnow_calls transaction database warnings urandom_calls insert_all app].
  rewrite insert_auth_token_new; [|done|done|by apply bool_decide_eq_true|].
  2:{ unfold without_auth. cbn. by intros r [Hne _]%list_elem_of_filter. }
  case_decide as Hkey.
  - by rewrite insert_event_dup.
  - by rewrite insert_event_new.
Qed.

(** [create_token(discord_id, commit=True)] on a session whose pending
    objects flush to [tb], when a candidate is accepted and the audit
    event is new. *)
Lemma create_token_committed discord_id s tb m token d :
  session_active s = true →
  insert_all (session_new s) (utcnow_calls s) (transaction s) = (inl tb, m) →
  valid_id discord_id →
  first_fresh 99 (urandom_calls s) (stored_tokens tb) = (Some token, d) →
  (discord_id, "TOKEN_CREATE", utcnow (S m)) ∉ Event.key <$> events tb →
  create_token discord_id true s =
  (Return tt,
   mkSchema (issued discord_id token m tb) (issued discord_id token m tb) [] true
            (warnings s) (S (S m)) d).
Proof.
  intros Ha Hins Hv Hff Hfree. unfold create_token, bind.
  change (length (seq 1 99)) with 99%nat.
  rewrite (fresh_token_active _ _ _ _ Ha Hins). rewrite Hff. cbn [fst snd].
  unfold session_add at 1. rewrite register_event_commit by done.
  cbn [session_new utcnow_calls transaction database warnings urandom_calls app].
  rewrite insert_token_and_event;
    [|done|by eapply first_fresh_fits|by eapply first_fresh_Some|done].
  unfold when. by rewrite commit_active.
Qed.

Lemma get_api_token_idle discord_id s :
  session_active s = true → session_new s = [] →
  get_api_token discord_id s =
  match token_rows discord_id (transaction s) with
  | r :: _ => (Return (ApiToken.token r), s)
  | [] => (Raise KeyError, s)
  end.
Proof.
  intros Ha Hn. unfold get_api_token, bind. rewrite query_all_idle by done.
  unfold token_rows. by destruct (filter _ _).
Qed.

Lemma get_api_user_idle token s :
  session_active s = true → session_new s = [] →
  get_api_user token s =
  match filter (λ r, ApiToken.token r = token) (api_tokens (transaction s)) with
  | r :: _ => (Return (ApiToken.discord_id r), s)
  | [] => (Raise KeyError, s)
  end.
Proof.
  intros Ha Hn. unfold get_api_user, bind. rewrite query_all_idle by done.
  by destruct (filter _ _).
Qed.

(** ** Revoking *)

(** C6.  For an account without [ApiToken] rows, [revoke_token] answers
    without an error, leaves the [api_tokens] table as it was, and
    afterwards the [events] table holds the [TOKEN_REVOKE] event of the
    account stamped with the reading of the clock made by the call; when
    no event with that key was stored before, it is the one row the call
    appended. *)
Theorem revoke_token_without_token discord_id s :
  clean s → valid_id discord_id → token_rows discord_id (database s) = [] →
  ∃ s',
    revoke_token discord_id true s = (Return tt, s') ∧
    api_tokens (database s') = api_tokens (database s) ∧
    api_tokens (transaction s') = api_tokens (database s) ∧
    Event.mk discord_id "TOKEN_REVOKE" (utcnow (utcnow_calls s)) ∈ events (database s') ∧
    (Event.mk discord_id "TOKEN_REVOKE" (utcnow (utcnow_calls s)) ∉ events (database s) →
     events (database s') =
     events (database s) ++ [Event.mk discord_id "TOKEN_REVOKE" (utcnow (utcnow_calls s))]).
Proof.
  intros Hclean Hv Hnone. rewrite revoke_token_clean by done.
  assert (filter (λ r, ¬ ApiToken.discord_id r = discord_id) (api_tokens (database s))
          = api_tokens (database s)) as Hsame.
  { apply filter_all. intros r Hr Heq.
    assert (r ∈ token_rows discord_id (database s)) as Hin
      by by apply list_elem_of_filter.
    rewrite Hnone in Hin. by apply elem_of_nil in Hin. }
  case_decide as Hkey; eexists; (split; [reflexivity|]); cbn.
  - repeat split; [|].
    + apply list_elem_of_fmap in Hkey as ([i a c] & [= -> -> ->] & He). exact He.
    + intros Hnot. exfalso. apply Hnot.
      apply list_elem_of_fmap in Hkey as ([i a c] & [= -> -> ->] & He). exact He.
  - repeat split; try done. apply elem_of_app. right. by left.
Qed.

(** The commit of an audit event, on a session with nothing else to
    flush, meets a stored event with the same account, action and
    timestamp. *)
Lemma commit_duplicate_event discord_id action s :
  session_active s = true → session_new s = [] →
  valid_id discord_id → fits 64 action = true →
  (discord_id, action, utcnow (utcnow_calls s)) ∈ Event.key <$> events (transaction s) →
  (commit (session_add (NewEvent discord_id action) s).2).1 = Raise IntegrityError.
Proof.
  intros Ha Hn Hv Hact Hkey. rewrite commit_active by done.
  cbn [session_add snd session_new utcnow_calls transaction]. rewrite Hn.
  cbn [app insert_all]. by rewrite insert_event_dup.
Qed.

(** When the commit made by [register_event] fails on a duplicate key,
    the error is answered by a warning and not raised to the caller; the
    database stays at its last commit, and the session is back at it:
    whatever the open transaction had done is rolled back with the
    event. *)
Theorem register_event_duplicate_swallowed discord_id action s :
  (commit (session_add (NewEvent discord_id action) s).2).1 = Raise IntegrityError →
  ∃ s',
    register_event discord_id action true s = (Return tt, s') ∧
    warnings s' = warnings s ++ ["Attempting to commit events too quickly!"] ∧
    database s' = database s ∧ transaction s' = database s ∧
    session_new s' = [] ∧ session_active s' = true.
Proof.
  intros Hfail. destruct (session_active s) eqn:Ha.
  - rewrite register_event_commit by done.
    rewrite commit_active in Hfail by done.
    cbn [session_add snd session_new utcnow_calls transaction] in Hfail.
    destruct (insert_all _ _ _) as [[tb|e] n]; [done|].
    cbn in Hfail. injection Hfail as ->. eexists. split; [reflexivity|]. done.
  - rewrite commit_inactive in Hfail by done. done.
Qed.

(** ** Generating a token *)

Lemma first_fresh_at n d stored k :
  (k < n)%nat → (∀ j, (j < k)%nat → token_of_draw (d + j) ∈ stored) →
  token_of_draw (d + k) ∉ stored →
  first_fresh n d stored = (Some (token_of_draw (d + k)), S (d + k)).
Proof.
  revert d k. induction n as [|n IH]; intros d k Hk Hbefore Hnew; [lia|].
  rewrite first_fresh_S. destruct k as [|k].
  - rewrite Nat.add_0_r in *. by rewrite decide_False.
  - rewrite decide_True.
    2:{ specialize (Hbefore 0%nat). rewrite Nat.add_0_r in Hbefore. apply Hbefore. lia. }
    replace (d + S k)%nat with (S d + k)%nat in * by lia.
    apply IH; [lia| |done].
    intros j Hj. replace (S d + j)%nat with (d + S j)%nat by lia. apply Hbefore. lia.
Qed.

(** C3.  [create_token] draws a candidate and looks it up in
    [api_tokens], at most 99 times; the first lookup flushes what the
    session has pending, to the tables [tb].  When all 99 candidates are
    values of stored rows it raises [RuntimeError], having added no row
    and queued none.  When candidate [k] is the first that no stored row
    carries, exactly [k + 1] candidates are drawn and that one is queued
    for the account; with [commit=True] the row it appends to [api_tokens]
    carries a value that no row of the table, of any account, had. *)
Theorem create_token_retries discord_id s tb m :
  session_active s = true →
  insert_all (session_new s) (utcnow_calls s) (transaction s) = (inl tb, m) →
  let stored := stored_tokens tb in
  let d := urandom_calls s in
  (∀ commit_,
     (∀ k, (k < 99)%nat → token_of_draw (d + k) ∈ stored) →
     create_token discord_id commit_ s =
     (Raise RuntimeError, mkSchema (database s) tb [] true (warnings s) m (d + 99))) ∧
  (∀ k, (k < 99)%nat → (∀ j, (j < k)%nat → token_of_draw (d + j) ∈ stored) →
     token_of_draw (d + k) ∉ stored →
     create_token discord_id false s =
     (Return tt,
      mkSchema (database s) tb
               [NewApiToken discord_id (token_of_draw (d + k));
                NewEvent discord_id "TOKEN_CREATE"]
               true (warnings s) m (S (d + k))) ∧
     (valid_id discord_id →
      (∀ i, (m ≤ i)%nat →
            (discord_id, "TOKEN_CREATE", utcnow i) ∉ Event.key <$> events tb) →
      ∃ s' t, create_token discord_id true s = (Return tt, s') ∧
              api_tokens (database s') =
              api_tokens tb ++ [ApiToken.mk discord_id (token_of_draw (d + k)) t] ∧
              urandom_calls s' = S (d + k))).
Proof.
  intros Ha Hins stored d. split.
  - intros commit_ Hall. unfold create_token, bind.
    change (length (seq 1 99)) with 99%nat.
    rewrite (fresh_token_active _ _ _ _ Ha Hins). fold stored d.
    by rewrite (first_fresh_None 99 d stored Hall).
  - intros k Hk Hbefore Hnew.
    pose proof (first_fresh_at 99 d stored k Hk Hbefore Hnew) as Hff. split.
    + rewrite (create_token_deferred _ _ _ _ Ha Hins). fold stored d. by rewrite Hff.
    + intros Hv Hfree. eexists _, _. split.
      * apply (create_token_committed _ _ _ _ _ _ Ha Hins Hv Hff). apply Hfree. lia.
      * done.
Qed.

(** ** Creating a user *)

(** C10.  [create_user] with [generate_token=True] and [commit=True] is
    not atomic.  For an account without a [User] row, when each of the 99
    candidates is the token of another account, the call raises
    [RuntimeError]: by then the [User] row and the [USER_CREATE] event are
    committed, the session sees no [ApiToken] row of the account, and the
    committed [api_tokens] table is the one from before the call. *)
Theorem create_user_not_atomic discord_id s :
  clean s → valid_id discord_id →
  discord_id ∉ User.discord_id <$> users (database s) →
  no_clash discord_id s →
  (∀ k, (k < 99)%nat →
        token_of_draw (urandom_calls s + k)
          ∈ stored_tokens (without_tokens discord_id (database s))) →
  ∃ s',
    create_user discord_id true true s = (Raise RuntimeError, s') ∧
    (∃ t, User.mk discord_id t ∈ users (database s')) ∧
    (∃ t, Event.mk discord_id "USER_CREATE" t ∈ events (database s')) ∧
    token_rows discord_id (transaction s') = [] ∧
    api_tokens (database s') = api_tokens (database s).
Proof.
  intros Hclean Hv Hnew Hno Hall. rewrite create_user_new by done. cbn zeta.
  change (stored_tokens (revoked discord_id (2 + utcnow_calls s)
                           (created_user discord_id (utcnow_calls s) (database s))))
    with (stored_tokens (without_tokens discord_id (database s))).
  rewrite (first_fresh_None 99 _ _ Hall).
  eexists. split; [reflexivity|]. cbn [database transaction].
  split; [|split; [|split]].
  - eexists. cbn. apply elem_of_app. right. by left.
  - eexists. cbn. apply elem_of_app. right. by left.
  - unfold token_rows. cbn. apply filter_none.
    by intros r [Hne _]%list_elem_of_filter.
  - done.
Qed.

Lemma user_rows_nil discord_id tb :
  user_rows discord_id tb = [] ↔ discord_id ∉ User.discord_id <$> users tb.
Proof.
  unfold user_rows. split.
  - intros Hnil (r & -> & Hr)%list_elem_of_fmap.
    by apply (filter_nil_not_elem_of _ _ r Hnil).
  - intros Hnot. apply filter_none. intros r Hr <-.
    by apply Hnot, list_elem_of_fmap_2.
Qed.

Lemma token_rows_issued discord_id token k m tb :
  token_rows discord_id (issued discord_id token k (revoked discord_id m tb)) =
  [ApiToken.mk discord_id token (utcnow k)].
Proof.
  unfold token_rows. cbn. rewrite filter_app.
  rewrite (filter_none _ (filter _ _)).
  - by rewrite filter_cons_True.
  - by intros r [Hne _]%list_elem_of_filter.
Qed.

Lemma api_tokens_issued discord_id token k m tb :
  api_tokens (issued discord_id token k (revoked discord_id m tb)) =
  filter (λ r, ApiToken.discord_id r ≠ discord_id) (api_tokens tb) ++
  [ApiToken.mk discord_id token (utcnow k)].
Proof. done. Qed.

Lemma regenerate_token_commit discord_id s :
  regenerate_token discord_id true s = (regenerate_token discord_id false ;; commit) s.
Proof.
  unfold regenerate_token, bind, when, ret.
  destruct (revoke_token discord_id false s) as [[[]|e] s1]; [|done].
  destruct (create_token discord_id false s1) as [[[]|e] s2]; done.
Qed.

(** C8, as amended.  For a valid account ID without a [User] row whose
    stored audit events do not clash with the clock: [create_user] with
    [generate_token=True] followed by [get_api_token] answers a non-empty
    token whenever one of the 99 candidates is not a stored token; and
    [create_user] with [generate_token=False] followed by [get_api_token]
    raises [KeyError] provided the account has no [ApiToken] row left
    over. *)
Theorem create_user_then_get_api_token discord_id s :
  clean s → valid_id discord_id → user_rows discord_id (database s) = [] →
  no_clash discord_id s →
  ((∃ k, (k < 99)%nat ∧
         token_of_draw (urandom_calls s + k) ∉ stored_tokens (database s)) →
   ∃ s1 token,
     create_user discord_id true true s = (Return tt, s1) ∧
     get_api_token discord_id s1 = (Return token, s1) ∧ token ≠ "") ∧
  (token_rows discord_id (database s) = [] →
   ∃ s1,
     create_user discord_id false true s = (Return tt, s1) ∧
     get_api_token discord_id s1 = (Raise KeyError, s1)).
Proof.
  intros Hclean Hv Hnew%user_rows_nil Hno. split.
  - intros (k & Hk & Hfresh). rewrite create_user_new by done. cbn zeta.
    destruct (first_fresh_found 99 (urandom_calls s)
                (stored_tokens (revoked discord_id (2 + utcnow_calls s)
                   (created_user discord_id (utcnow_calls s) (database s)))) k Hk)
      as (token & d & Hff).
    { intros Hin. apply Hfresh. by apply (stored_tokens_without discord_id). }
    rewrite Hff. eexists _, token. split; [reflexivity|].
    rewrite get_api_token_idle by done. cbn [transaction].
    rewrite token_rows_issued. split; [done|].
    apply first_fresh_Some in Hff as (_ & j & _ & -> & _).
    apply token_of_draw_nonempty.
  - intros Hnone. rewrite create_user_new by done. cbn zeta.
    eexists. split; [reflexivity|].
    rewrite get_api_token_idle by done. cbn [transaction].
    change (token_rows discord_id (created_user discord_id (utcnow_calls s) (database s)))
      with (token_rows discord_id (database s)).
    by rewrite Hnone.
Qed.

(** ** Regenerating a token *)


(** [regenerate_token(discord_id, commit=True)] between two commits, when
    the candidate drawn is not a stored token and the account's events do
    not clash with the clock. *)
Lemma regenerate_token_fresh discord_id s :
  clean s → valid_id discord_id → no_clash discord_id s →
  token_of_draw (urandom_calls s) ∉ stored_tokens (database s) →
  regenerate_token discord_id true s =
  (Return tt,
   mkSchema
     (issued discord_id (token_of_draw (urandom_calls s)) (S (utcnow_calls s))
        (revoked discord_id (utcnow_calls s) (database s)))
     (issued discord_id (token_of_draw (urandom_calls s)) (S (utcnow_calls s))
        (revoked discord_id (utcnow_calls s) (database s)))
     [] true (warnings s) (3 + utcnow_calls s) (S (urandom_calls s))).
Proof.
  intros Hclean Hv Hno Hfresh.
  destruct s as [db tx new act w n d]. destruct Hclean as (Ha & Hn & Htx).
  cbn in Ha, Hn, Htx, Hfresh. subst.
  set (s := mkSchema db db [] true w n d) in *.
  assert (token_of_draw d ∉ stored_tokens (revoked discord_id n db)) as Hfresh'.
  { intros Hin. apply Hfresh. by apply (stored_tokens_without discord_id). }
  rewrite regenerate_token_commit. unfold bind at 1.
  rewrite regenerate_token_deferred; [|done..|].
  2:{ cbn [utcnow_calls transaction s]. key_free s Hno. }
  cbn zeta. cbn [utcnow_calls transaction urandom_calls database warnings s].
  rewrite first_fresh_first by done.
  rewrite commit_active by done.
  cbn [session_new utcnow_calls transaction database warnings urandom_calls].
  rewrite insert_token_and_event; [done|done|apply token_of_draw_fits|done|].
  key_free s Hno.
Qed.

(** The scenario of the specification, in every world whose clock moves
    on at each reading and whose first two draws differ: create the user,
    read its token, regenerate, read again, resolve both tokens. *)
Lemma token_scenario discord_id :
  valid_id discord_id → ticking init → token_of_draw 0 ≠ token_of_draw 1 →
  ∃ s1 s2,
    create_user discord_id true true init = (Return tt, s1) ∧
    get_api_token discord_id s1 = (Return (token_of_draw 0), s1) ∧
    regenerate_token discord_id true s1 = (Return tt, s2) ∧
    get_api_token discord_id s2 = (Return (token_of_draw 1), s2) ∧
    get_api_user (token_of_draw 0) s2 = (Raise KeyError, s2) ∧
    get_api_user (token_of_draw 1) s2 = (Return discord_id, s2).
Proof.
  intros Hv Htick Hdiff.
  assert (create_user discord_id true true init =
          (Return tt,
           mkSchema
             (issued discord_id (token_of_draw 0) 3
                (revoked discord_id 2 (created_user discord_id 0 no_tables)))
             (issued discord_id (token_of_draw 0) 3
                (revoked discord_id 2 (created_user discord_id 0 no_tables)))
             [] true [] 5 1)) as Hcreate.
  { rewrite create_user_new; [|done|done|apply not_elem_of_nil|].
    2:{ intros e k He. by apply elem_of_nil in He. }
    cbn zeta. cbn [utcnow_calls urandom_calls init database warnings].
    by rewrite first_fresh_first by apply not_elem_of_nil. }
  set (s1 := mkSchema _ _ [] true [] 5 1) in Hcreate.
  eexists s1, _. split; [exact Hcreate|]. split.
  { rewrite get_api_token_idle by done. cbn [transaction s1].
    by rewrite token_rows_issued. }
  split.
  { apply regenerate_token_fresh; [done|done| |].
    - intros e k He Hid Hk. cbn in He, Hk.
      rewrite !elem_of_cons, elem_of_nil in He.
      destruct He as [->|[->|[->|[]]]]; cbn; apply Htick; cbn; lia.
    - cbn. intros Hin%list_elem_of_singleton. congruence. }
  rewrite get_api_token_idle by done. rewrite !get_api_user_idle by done.
  cbn [transaction urandom_calls s1]. rewrite token_rows_issued.
  split; [done|].
  rewrite api_tokens_issued.
  rewrite (filter_none (λ r, ApiToken.discord_id r ≠ discord_id)).
  2:{ intros r Hr Hne. unfold s1 in Hr. cbn [database] in Hr.
      rewrite api_tokens_issued in Hr.
      apply elem_of_app in Hr as [[_ []%elem_of_nil]%list_elem_of_filter|Hr].
      apply list_elem_of_singleton in Hr. subst r. by destruct Hne. }
  cbn [app]. rewrite filter_cons_False by (cbn; congruence).
  by rewrite filter_cons_True.
Qed.

(** ** Provider tokens *)


(** What [set_auth_discord] leaves of the [auth_tokens] table: the rows
    of the other accounts, and the new row. *)
Lemma set_auth_discord_table discord_id token k tb :
  auth_tokens (authenticated discord_id token k tb) =
  filter (λ r, AuthToken.discord_id r ≠ discord_id) (auth_tokens tb) ++
  [AuthToken.mk discord_id "DISCORD" token (utcnow k)].
Proof. done. Qed.

(** [set_auth_discord] on a clean store: the rows of other accounts
    stay, every row of the account goes, whatever its provider, and the
    new [DISCORD] row is added. *)
Lemma set_auth_discord_replaces_account_rows discord_id token s :
  clean s → valid_id discord_id → valid_auth_token token → no_clash discord_id s →
  ∃ s' t,
    set_auth_discord discord_id token true s = (Return tt, s') ∧
    auth_tokens (database s') =
    filter (λ r, AuthToken.discord_id r ≠ discord_id) (auth_tokens (database s)) ++
    [AuthToken.mk discord_id "DISCORD" token t].
Proof.
  intros Hclean Hv Ht Hno. rewrite set_auth_discord_clean by done.
  rewrite decide_False by key_free s Hno.
  eexists _, _. split; [reflexivity|]. apply set_auth_discord_table.
Qed.


(** ** Ensuring a user *)






(** ** A second [create_user] *)

(** [create_user] for an account that already has a [User] row, without
    token generation: the INSERT fails inside the commit made by
    [register_event], which answers with a warning; the commit of
    [create_user] itself then has nothing to do, and the handler that
    raises [AttributeError] is not reached. *)
Lemma create_user_duplicate_swallowed discord_id s :
  clean s → valid_id discord_id →
  discord_id ∈ User.discord_id <$> users (database s) →
  create_user discord_id false true s =
  (Return tt,
   mkSchema (database s) (database s) [] true
            (warnings s ++ ["Attempting to commit events too quickly!"])
            (S (utcnow_calls s)) (urandom_calls s)).
Proof.
  intros Hclean Hv Hin.
  destruct s as [db tx new act w n d]. destruct Hclean as (Ha & Hn & Htx).
  cbn in Ha, Hn, Htx, Hin. subst. cbn [database utcnow_calls warnings urandom_calls].
  unfold create_user. unfold bind at 1. unfold session_add at 1.
  unfold bind at 1. rewrite register_event_commit by done.
  cbn [session_new utcnow_calls transaction database warnings urandom_calls app insert_all].
  rewrite insert_user_dup by done.
  unfold when at 1. unfold bind at 1, ret at 1.
  unfold when, try_except. by rewrite commit_active.
Qed.

End Properties.

(** * What every call keeps *)

Section Stable.

Context {world : World}.
Variable I : Schema → Prop.
Hypothesis HI : stable I.

Lemma keeps_ret {A} (a : A) : keeps I (ret a).
Proof. by intros s Hs. Qed.

Lemma keeps_raise {A} (e : exn) : keeps I (@raise A e).
Proof. by intros s Hs. Qed.

Lemma keeps_bind {A B} (m : M A) (f : A → M B) :
  keeps I m → (∀ a, keeps I (f a)) → keeps I (bind m f).
Proof.
  intros Hm Hf s Hs. unfold bind. specialize (Hm s Hs).
  destruct (m s) as [[a|e] s']; [by apply Hf|done].
Qed.

Lemma keeps_try {A} (m : M A) handles h :
  keeps I m → (∀ e, keeps I (h e)) → keeps I (try_except m handles h).
Proof.
  intros Hm Hh s Hs. unfold try_except. specialize (Hm s Hs).
  destruct (m s) as [[a|e] s']; [done|]. destruct (handles e); [by apply Hh|done].
Qed.

Lemma keeps_when b m : keeps I m → keeps I (when b m).
Proof. intros Hm. destruct b; [done|apply keeps_ret]. Qed.

Lemma session_flush_returned s s' :
  session_flush s = (Return tt, s') → session_new s' = [] ∧ session_active s' = true.
Proof.
  unfold session_flush. destruct (session_active s); [|done].
  destruct (insert_all _ _ _) as [[tb|e] n]; [|done]. by intros [= <-].
Qed.

Lemma keeps_add o :
  (∀ discord_id token, o ≠ NewApiToken discord_id token) → keeps I (session_add o).
Proof.
  intros Hnot s Hs. apply (stable_add I HI); [done|].
  intros discord_id token ->. by destruct (Hnot discord_id token).
Qed.

Lemma keeps_flush : keeps I session_flush.
Proof. intros s Hs. by apply (stable_flush I HI). Qed.

Lemma keeps_query_all {A} (table : Tables → list A) (P : A → Prop)
    `{∀ x, Decision (P x)} :
  keeps I (query_all table P).
Proof.
  apply keeps_bind; [apply keeps_flush|]. by intros [] s Hs.
Qed.

Lemma keeps_delete_users discord_id :
  keeps I (query_delete users set_users (λ r, User.discord_id r = discord_id)).
Proof.
  intros s Hs. unfold query_delete, bind.
  pose proof (stable_flush I HI s Hs) as Hflush.
  destruct (session_flush s) as [[[]|e] s'] eqn:Hrun; [|done].
  apply session_flush_returned in Hrun as [Hnew _].
  by apply (stable_delete_users I HI).
Qed.

Lemma keeps_delete_tokens discord_id :
  keeps I (query_delete api_tokens set_api_tokens
             (λ r, ApiToken.discord_id r = discord_id)).
Proof.
  intros s Hs. unfold query_delete, bind.
  pose proof (stable_flush I HI s Hs) as Hflush.
  destruct (session_flush s) as [[[]|e] s'] eqn:Hrun; [|done].
  apply session_flush_returned in Hrun as [Hnew _].
  by apply (stable_delete_tokens I HI).
Qed.

Lemma keeps_delete_auth discord_id :
  keeps I (query_delete auth_tokens set_auth_tokens
             (λ r, AuthToken.discord_id r = discord_id)).
Proof.
  intros s Hs. unfold query_delete, bind.
  pose proof (stable_flush I HI s Hs) as Hflush.
  destruct (session_flush s) as [[[]|e] s'] eqn:Hrun; [|done].
  apply session_flush_returned in Hrun as [Hnew _].
  by apply (stable_delete_auth I HI).
Qed.

Lemma keeps_commit : stable_commit I → keeps I commit.
Proof.
  intros Hcommit. apply keeps_try.
  - intros s Hs. unfold session_commit, bind.
    pose proof (stable_flush I HI s Hs) as Hflush.
    destruct (session_flush s) as [[[]|e] s'] eqn:Hrun; [|done].
    apply session_flush_returned in Hrun as [Hnew _]. by apply Hcommit.
  - intros e. apply keeps_bind; [|intros; apply keeps_raise].
    intros s Hs. by apply (stable_rollback I HI).
Qed.

Lemma keeps_when_commit (commit_ : bool) (m : M unit) :
  (commit_ = true → keeps I m) → keeps I (when commit_ m).
Proof. intros Hm. destruct commit_; [by apply Hm|apply keeps_ret]. Qed.

Lemma keeps_register_event discord_id action commit_ :
  (commit_ = true → stable_commit I) →
  keeps I (register_event discord_id action commit_).
Proof.
  intros Hcommit. apply keeps_bind; [by apply keeps_add|]. intros _.
  apply keeps_when_commit. intros Htrue. apply keeps_try.
  - by apply keeps_commit, Hcommit.
  - intros e s Hs. by apply (stable_warn I HI).
Qed.

Lemma keeps_revoke_token discord_id commit_ :
  (commit_ = true → stable_commit I) → keeps I (revoke_token discord_id commit_).
Proof.
  intros Hcommit. apply keeps_bind; [apply keeps_delete_tokens|]. intros _.
  apply keeps_bind; [by apply keeps_register_event|]. intros _.
  apply keeps_when_commit. intros Htrue. by apply keeps_commit, Hcommit.
Qed.

(** The loop of [create_token] keeps [I], and a candidate it accepts is
    not stored while nothing waits to be flushed. *)
Lemma fresh_token_kept n s r s' :
  I s → fresh_token n s = (r, s') →
  I s' ∧ ∀ token, r = Return (Some token) →
                  session_new s' = [] ∧ token ∉ stored_tokens (transaction s').
Proof.
  revert s. induction n as [|n IH]; intros s Hs.
  - unfold fresh_token, ret. intros [= <- <-]. by split.
  - unfold fresh_token; fold fresh_token. unfold bind at 1.
    pose proof (stable_draw I HI s Hs) as Hdraw.
    destruct (token_urlsafe s) as [[candidate|e] s1] eqn:Hcand; [|done].
    unfold token_urlsafe in Hcand. injection Hcand as <- Hs1.
    unfold bind at 1, query_all at 1, bind at 1.
    pose proof (stable_flush I HI s1 Hdraw) as Hflush.
    destruct (session_flush s1) as [[[]|e] s2] eqn:Hrun.
    + apply session_flush_returned in Hrun as [Hnew _].
      destruct (filter _ _) as [|row rows] eqn:Hfilter.
      * unfold ret. intros [= <- <-]. split; [done|].
        intros token [= <-]. split; [done|]. by apply filter_token_nil.
      * by apply IH.
    + intros [= <- <-]. by split.
Qed.

Lemma keeps_create_token discord_id commit_ :
  (commit_ = true → stable_commit I) → keeps I (create_token discord_id commit_).
Proof.
  intros Hcommit s Hs. unfold create_token. unfold bind at 1.
  destruct (fresh_token _ s) as [r s1] eqn:Hloop.
  destruct (fresh_token_kept _ _ _ _ Hs Hloop) as [Hs1 Hfresh].
  destruct r as [[token|]|e]; [|done..].
  destruct (Hfresh token eq_refl) as [Hnew Hnot].
  assert (I (session_add (NewApiToken discord_id token) s1).2) as Hadd.
  { apply (stable_add I HI); [done|]. by intros ? ? [= _ <-]. }
  unfold bind at 1.
  destruct (session_add (NewApiToken discord_id token) s1) as [[[]|e] s2]; [|done].
  revert s2 Hadd. change (keeps I (register_event discord_id "TOKEN_CREATE" commit_ ;;
                                   when commit_ commit)).
  apply keeps_bind; [by apply keeps_register_event|]. intros _.
  apply keeps_when_commit. intros Htrue. by apply keeps_commit, Hcommit.
Qed.

Lemma keeps_regenerate_token discord_id commit_ :
  (commit_ = true → stable_commit I) → keeps I (regenerate_token discord_id commit_).
Proof.
  intros Hcommit. apply keeps_bind; [by apply keeps_revoke_token|]. intros _.
  apply keeps_bind; [by apply keeps_create_token|]. intros _.
  apply keeps_when_commit. intros Htrue. by apply keeps_commit, Hcommit.
Qed.

Lemma keeps_create_user discord_id generate_token commit_ :
  (commit_ = true → stable_commit I) →
  keeps I (create_user discord_id generate_token commit_).
Proof.
  intros Hcommit. apply keeps_bind; [by apply keeps_add|]. intros _.
  apply keeps_bind; [by apply keeps_register_event|]. intros _.
  apply keeps_bind; [by apply keeps_when, keeps_regenerate_token|]. intros _.
  apply keeps_when_commit. intros Htrue. apply keeps_try.
  - by apply keeps_commit, Hcommit.
  - intros e. apply keeps_raise.
Qed.

Lemma keeps_ensure_user discord_id generate_token commit_ :
  (commit_ = true → stable_commit I) →
  keeps I (ensure_user discord_id generate_token commit_).
Proof.
  intros Hcommit. apply keeps_bind; [apply keeps_query_all|].
  intros [|row rows]; [by apply keeps_create_user|apply keeps_ret].
Qed.

Lemma keeps_delete_user discord_id commit_ :
  (commit_ = true → stable_commit I) → keeps I (delete_user discord_id commit_).
Proof.
  intros Hcommit. apply keeps_bind; [apply keeps_delete_users|]. intros _.
  apply keeps_bind; [by apply keeps_register_event|]. intros _.
  apply keeps_when_commit. intros Htrue. by apply keeps_commit, Hcommit.
Qed.

Lemma keeps_get_api_user token : keeps I (get_api_user token).
Proof.
  apply keeps_bind; [apply keeps_query_all|].
  intros [|row rows]; [apply keeps_raise|apply keeps_ret].
Qed.

Lemma keeps_get_api_token discord_id : keeps I (get_api_token discord_id).
Proof.
  apply keeps_bind; [apply keeps_query_all|].
  intros [|row rows]; [apply keeps_raise|apply keeps_ret].
Qed.

Lemma keeps_set_auth_discord discord_id discord_token commit_ :
  (commit_ = true → stable_commit I) →
  keeps I (set_auth_discord discord_id discord_token commit_).
Proof.
  intros Hcommit. apply keeps_bind; [apply keeps_delete_auth|]. intros _.
  apply keeps_bind; [by apply keeps_add|]. intros _.
  apply keeps_bind; [by apply keeps_register_event|]. intros _.
  apply keeps_when_commit. intros Htrue. by apply keeps_commit, Hcommit.
Qed.

(** Every call keeps a stable property; a call that is asked to commit
    needs the property to survive the commit. *)
Lemma after_keeps c s :
  (commits c = true → stable_commit I) → I s → I (after c s).
Proof.
  destruct c; cbn [commits after]; intros Hcommit Hs.
  - by apply keeps_create_user.
  - by apply keeps_ensure_user.
  - by apply keeps_delete_user.
  - by apply keeps_create_token.
  - by apply keeps_revoke_token.
  - by apply keeps_regenerate_token.
  - by apply keeps_register_event.
  - by apply keeps_get_api_user.
  - by apply keeps_get_api_token.
  - by apply keeps_set_auth_discord.
  - apply keeps_commit; [by apply Hcommit|done].
Qed.

Lemma after_all_keeps cs s : stable_commit I → I s → I (after_all cs s).
Proof.
  intros Hcommit. revert s. induction cs as [|c cs IH]; intros s Hs; [done|].
  cbn. apply IH. by apply after_keeps.
Qed.

End Stable.

Section Invariants.

Context {world : World}.

Lemma pending_tokens_app l1 l2 :
  pending_tokens (l1 ++ l2) = pending_tokens l1 ++ pending_tokens l2.
Proof.
  induction l1 as [|o l1 IH]; [done|]. destruct o; cbn; by rewrite ?IH.
Qed.

Lemma insert_row_effect now o tb tb' :
  insert_row now o tb = inl tb' →
  stored_tokens tb' = stored_tokens tb ++ pending_tokens [o] ∧
  events tb `prefix_of` events tb'.
Proof.
  unfold insert_row, stored_tokens.
  destruct o; repeat case_match; intros [= <-]; cbn.
  - by rewrite app_nil_r.
  - rewrite app_nil_r. split; [done|]. by apply prefix_app_r.
  - by rewrite fmap_app.
  - by rewrite app_nil_r.
Qed.

Lemma insert_all_effect l n tb tb' m :
  insert_all l n tb = (inl tb', m) →
  stored_tokens tb' = stored_tokens tb ++ pending_tokens l ∧
  events tb `prefix_of` events tb'.
Proof.
  revert n tb. induction l as [|o l IH]; intros n tb; cbn [insert_all].
  - intros [= <- <-]. by rewrite app_nil_r.
  - destruct (insert_row (utcnow n) o tb) as [tb1|e] eqn:Hrow; [|done].
    intros [Hstored Hevents]%IH.
    apply insert_row_effect in Hrow as [Hstored1 Hevents1]. split.
    + rewrite Hstored, Hstored1, <- app_assoc. f_equal.
      by rewrite <- pending_tokens_app.
    + by etrans.
Qed.

Lemma NoDup_fmap_filter {A B} (f : A → B) (P : A → Prop) `{∀ x, Decision (P x)}
    (l : list A) :
  NoDup (f <$> l) → NoDup (f <$> filter P l).
Proof.
  induction l as [|x l IH]; [done|]. rewrite fmap_cons, NoDup_cons.
  intros [Hx Hl]. rewrite filter_cons. case_decide; [|by apply IH].
  rewrite fmap_cons, NoDup_cons. split; [|by apply IH].
  intros (y & Hfy & [_ Hy]%list_elem_of_filter)%list_elem_of_fmap.
  apply Hx. rewrite Hfy. by apply list_elem_of_fmap_2.
Qed.

Lemma tokens_distinct_stable : stable tokens_distinct.
Proof.
  split.
  - intros o [db tx new act w n d] [Hdb Htx] Htoken. split; [done|]. cbn in *.
    rewrite pending_tokens_app. destruct o; cbn; rewrite ?app_nil_r; try done.
    destruct (Htoken _ _ eq_refl) as [-> Hnot]. cbn in *.
    rewrite app_nil_r in Htx. apply NoDup_app. split_and!; [done| |apply NoDup_singleton].
    intros x Hx ->%list_elem_of_singleton. done.
  - intros [db tx new act w n d] [Hdb Htx]. unfold session_flush. cbn in *.
    destruct act; [|done].
    destruct (insert_all new n tx) as [[tb|e] m] eqn:Hins; cbn.
    + apply insert_all_effect in Hins as [Hstored _]. split; cbn; [done|].
      by rewrite Hstored, app_nil_r.
    + split; cbn; [done|]. by rewrite app_nil_r.
  - intros [db tx new act w n d] [Hdb Htx]. split; [done|]. cbn. by rewrite app_nil_r.
  - by intros msg [db tx new act w n d] [Hdb Htx].
  - by intros [db tx new act w n d] [Hdb Htx].
  - by intros discord_id [db tx new act w n d] [Hdb Htx] Hnew.
  - intros discord_id [db tx new act w n d] [Hdb Htx] Hnew. cbn in *. subst new.
    split; [done|]. cbn in *. rewrite app_nil_r in *.
    by apply NoDup_fmap_filter.
  - by intros discord_id [db tx new act w n d] [Hdb Htx] Hnew.
Qed.

Lemma tokens_distinct_commit : stable_commit tokens_distinct.
Proof.
  intros [db tx new act w n d] [Hdb Htx] Hnew. cbn in *. subst new.
  cbn in *. split; [|done]. by rewrite app_nil_r in Htx.
Qed.

Lemma trail_kept_stable trail : stable (trail_kept trail).
Proof.
  split.
  - by intros o [db tx new act w n d] [Hdb Htx] _.
  - intros [db tx new act w n d] [Hdb Htx]. unfold session_flush. cbn in *.
    destruct act; [|done].
    destruct (insert_all new n tx) as [[tb|e] m] eqn:Hins; cbn.
    + apply insert_all_effect in Hins as [_ Hevents]. split; [done|]. by etrans.
    + by split.
  - by intros [db tx new act w n d] [Hdb Htx].
  - by intros msg [db tx new act w n d] [Hdb Htx].
  - by intros [db tx new act w n d] [Hdb Htx].
  - by intros discord_id [db tx new act w n d] [Hdb Htx] Hnew.
  - by intros discord_id [db tx new act w n d] [Hdb Htx] Hnew.
  - by intros discord_id [db tx new act w n d] [Hdb Htx] Hnew.
Qed.

Lemma trail_kept_commit trail : stable_commit (trail_kept trail).
Proof.
  intros [db tx new act w n d] [Hdb Htx] Hnew. cbn in *. split; [by etrans|done].
Qed.

Lemma same_database_stable db : stable (λ s, database s = db).
Proof.
  split; try by intros; cbn.
  intros [db' tx new act w n d] Hdb. unfold session_flush. cbn in *.
  destruct act; [|done]. by destruct (insert_all new n tx) as [[tb|e] m].
Qed.

(** Whatever calls are made on a store that was empty, whatever they
    answer, and whatever the clock and the random source return, no two
    committed [ApiToken] rows carry the same token value. *)
Theorem tokens_never_repeat cs :
  NoDup (stored_tokens (database (after_all cs init))).
Proof.
  assert (tokens_distinct (after_all cs init)) as [Hdb _]; [|done].
  apply (after_all_keeps _ tokens_distinct_stable); [apply tokens_distinct_commit|].
  split; apply NoDup_nil_2.
Qed.

(** The audit trail only grows: after any sequence of calls on a store
    that was empty, one more call leaves every committed [Event] row in
    place, in order, and at most appends rows. *)
Theorem audit_trail_append_only cs c :
  events (database (after_all cs init))
    `prefix_of` events (database (after c (after_all cs init))).
Proof.
  assert (trail_kept [] (after_all cs init)) as [_ Htx].
  { apply (after_all_keeps _ (trail_kept_stable [])); [apply trail_kept_commit|].
    by split. }
  assert (trail_kept (events (database (after_all cs init)))
            (after c (after_all cs init))) as [Hdb _]; [|done].
  apply (after_keeps _ (trail_kept_stable _)); [intros _; apply trail_kept_commit|].
  by split.
Qed.

(** A call with [commit=False], and a lookup, changes nothing in the
    database, whatever the state of the session and whatever it answers. *)
Theorem deferred_call_commits_nothing c s :
  commits c = false → database (after c s) = database s.
Proof.
  intros Hdeferred.
  apply (after_keeps (λ s', database s' = database s) (same_database_stable _));
    [|done].
  by rewrite Hdeferred.
Qed.

End Invariants.

(** * More on the methods *)

Section Methods.

Context {world : World}.

(** The key of a new audit event is free: from [no_clash] and the events
    added since the call started. *)
Ltac key_free s H :=
  eapply (event_key_free s);
    [exact H | cbn; lia
    | cbn; first [rewrite <- ?app_assoc; reflexivity | symmetry; apply app_nil_r] |];
  intros ? He; cbn in He; rewrite ?elem_of_cons, ?elem_of_nil in He;
  destruct_or?; subst; done.

(** ** [Schema.commit] *)

(** Whether [Schema.commit] succeeds or raises, it leaves a session with
    nothing pending and nothing uncommitted; when it raises, the error is
    the storage engine's and the database is as it was. *)
Theorem commit_leaves_clean_session s :
  session_active s = true →
  match commit s with
  | (Return _, s') => clean s' ∧ warnings s' = warnings s
  | (Raise e, s') =>
      is_StatementError e = true ∧ clean s' ∧ database s' = database s ∧
      warnings s' = warnings s
  end.
Proof.
  intros Ha. rewrite commit_active by done.
  destruct (insert_all _ _ _) as [[tb|e] n] eqn:Hins; [done|].
  split; [by eapply insert_all_error|done].
Qed.

(** ** Lookups *)

(** [get_api_user] on a session with nothing to flush: [KeyError] when
    no row carries the token, else an account that holds it; the [Schema]
    object is unchanged. *)
Theorem get_api_user_finds token s :
  session_active s = true → session_new s = [] →
  (token ∉ stored_tokens (transaction s) → get_api_user token s = (Raise KeyError, s)) ∧
  (token ∈ stored_tokens (transaction s) →
   ∃ discord_id, get_api_user token s = (Return discord_id, s) ∧
                 (discord_id, token) ∈ ApiToken.key <$> api_tokens (transaction s)).
Proof.
  intros Ha Hn. rewrite get_api_user_idle by done. split.
  - intros Hnot%filter_token_nil. by rewrite Hnot.
  - intros Hin. destruct (filter _ _) as [|r rs] eqn:Hf.
    + by apply filter_token_nil in Hf.
    + exists (ApiToken.discord_id r). split; [done|].
      assert (r ∈ filter (λ r, ApiToken.token r = token) (api_tokens (transaction s)))
        as [<- Hr]%list_elem_of_filter by (rewrite Hf; left).
      by apply (list_elem_of_fmap_2 ApiToken.key).
Qed.

(** [get_api_token] on a session with nothing to flush: [KeyError] when
    the account has no row, else a token the account holds; the [Schema]
    object is unchanged. *)
Theorem get_api_token_finds discord_id s :
  session_active s = true → session_new s = [] →
  (token_rows discord_id (transaction s) = [] →
   get_api_token discord_id s = (Raise KeyError, s)) ∧
  (token_rows discord_id (transaction s) ≠ [] →
   ∃ token, get_api_token discord_id s = (Return token, s) ∧
            (discord_id, token) ∈ ApiToken.key <$> api_tokens (transaction s)).
Proof.
  intros Ha Hn. rewrite get_api_token_idle by done. split.
  - by intros ->.
  - intros Hrows. destruct (token_rows discord_id (transaction s)) as [|r rs] eqn:Hf;
      [done|].
    exists (ApiToken.token r). split; [done|].
    assert (r ∈ token_rows discord_id (transaction s))
      as [<- Hr]%list_elem_of_filter by (rewrite Hf; left).
    by apply (list_elem_of_fmap_2 ApiToken.key).
Qed.

(** ** Deleting a user *)

(** [delete_user(discord_id, commit=True)] between two commits: either
    the audit event is new and the DELETE is committed with it, or its
    key is taken and the DELETE is rolled back behind the warning. *)
Lemma delete_user_clean discord_id s :
  clean s → valid_id discord_id →
  delete_user discord_id true s =
  if decide ((discord_id, "USER_DELETE", utcnow (utcnow_calls s))
               ∈ Event.key <$> events (database s))
  then (Return tt,
        mkSchema (database s) (database s) [] true
                 (warnings s ++ ["Attempting to commit events too quickly!"])
                 (S (utcnow_calls s)) (urandom_calls s))
  else (Return tt,
        let db := add_event (Event.mk discord_id "USER_DELETE" (utcnow (utcnow_calls s)))
                    (set_users (filter (λ r, ¬ User.discord_id r = discord_id)
                                  (users (database s))) (database s)) in
        mkSchema db db [] true (warnings s) (S (utcnow_calls s)) (urandom_calls s)).
Proof.
  intros Hclean Hv.
  destruct s as [db tx new act w n d]. destruct Hclean as (Ha & Hn & Htx).
  cbn in Ha, Hn, Htx. subst. cbn [database utcnow_calls warnings urandom_calls].
  unfold delete_user. unfold bind at 1. rewrite query_delete_active by done.
  cbn [session_new utcnow_calls transaction database warnings urandom_calls insert_all].
  unfold bind at 1. rewrite register_event_commit by done.
  cbn [session_new utcnow_calls transaction database warnings urandom_calls insert_all app].
  case_decide as Hkey.
  - rewrite insert_event_dup by done.
    unfold when. rewrite commit_active by done. done.
  - rewrite insert_event_new by done.
    unfold when. rewrite commit_active by done. done.
Qed.

(** [delete_user] does not cascade.  When the account's audit events do
    not clash with the clock it removes the [User] row of the account and
    appends the [USER_DELETE] event; the rows of other users, the
    [api_tokens] and the [auth_tokens] tables stay as they were, so every
    token of the deleted account still resolves. *)
Theorem delete_user_keeps_tokens discord_id s :
  clean s → valid_id discord_id → no_clash discord_id s →
  ∃ s',
    delete_user discord_id true s = (Return tt, s') ∧
    user_rows discord_id (database s') = [] ∧
    (∀ other, other ≠ discord_id →
              user_rows other (database s') = user_rows other (database s)) ∧
    api_tokens (database s') = api_tokens (database s) ∧
    auth_tokens (database s') = auth_tokens (database s) ∧
    events (database s') =
    events (database s) ++ [Event.mk discord_id "USER_DELETE" (utcnow (utcnow_calls s))] ∧
    (∀ token, (get_api_user token s').1 = (get_api_user token s).1) ∧
    (∀ account, (get_api_token account s').1 = (get_api_token account s).1).
Proof.
  intros Hclean Hv Hno. rewrite delete_user_clean by done.
  rewrite decide_False by key_free s Hno.
  pose proof Hclean as (Ha & Hn & Htx).
  eexists. split; [reflexivity|]. cbn zeta. cbn [database].
  split_and!; try done.
  - unfold user_rows. cbn. apply filter_none.
    by intros r [Hne _]%list_elem_of_filter.
  - intros other Hother. unfold user_rows. cbn.
    rewrite list_filter_filter. apply list_filter_iff. intros r. split; [tauto|].
    intros Heq. split; [done|]. congruence.
  - intros token. rewrite !get_api_user_idle by done. cbn [transaction].
    rewrite Htx. cbn [api_tokens add_event set_events set_users].
    by destruct (filter _ _).
  - intros account. rewrite !get_api_token_idle by done. cbn [transaction].
    rewrite Htx. unfold token_rows. cbn [api_tokens add_event set_events set_users].
    by destruct (filter _ _).
Qed.

(** ** Revoking and creating tokens *)

(** When the account's audit events do not clash with the clock,
    [revoke_token] deletes every [ApiToken] row of the account and no row
    of another account; afterwards [get_api_token] raises [KeyError] for
    the account. *)
Theorem revoke_token_removes_account_tokens discord_id s :
  clean s → valid_id discord_id → no_clash discord_id s →
  ∃ s',
    revoke_token discord_id true s = (Return tt, s') ∧
    api_tokens (database s') =
    filter (λ r, ApiToken.discord_id r ≠ discord_id) (api_tokens (database s)) ∧
    token_rows discord_id (database s') = [] ∧
    (∀ other, other ≠ discord_id →
              token_rows other (database s') = token_rows other (database s)) ∧
    get_api_token discord_id s' = (Raise KeyError, s').
Proof.
  intros Hclean Hv Hno. rewrite revoke_token_clean by done.
  rewrite decide_False by key_free s Hno.
  eexists. split; [reflexivity|]. cbn [database].
  assert (token_rows discord_id (revoked discord_id (utcnow_calls s) (database s)) = [])
    as Hnone.
  { unfold token_rows. cbn. apply filter_none.
    by intros r [Hne _]%list_elem_of_filter. }
  split_and!; try done.
  - intros other Hother. unfold token_rows. cbn.
    rewrite list_filter_filter. apply list_filter_iff. intros r. split; [tauto|].
    intros Heq. split; [done|]. congruence.
  - rewrite get_api_token_idle by done. cbn [transaction]. by rewrite Hnone.
Qed.

(** [create_token] does not revoke: when the candidate drawn is not a
    stored token and the account's audit events do not clash with the
    clock, the call adds one row for the account, the new token resolves
    to the account, and every token stored before resolves as before. *)
Theorem create_token_keeps_older_tokens discord_id s :
  clean s → valid_id discord_id → no_clash discord_id s →
  token_of_draw (urandom_calls s) ∉ stored_tokens (database s) →
  ∃ s',
    create_token discord_id true s = (Return tt, s') ∧
    get_api_user (token_of_draw (urandom_calls s)) s' = (Return discord_id, s') ∧
    (∀ old, old ∈ stored_tokens (database s) →
            (get_api_user old s').1 = (get_api_user old s).1) ∧
    length (token_rows discord_id (database s')) =
    S (length (token_rows discord_id (database s))).
Proof.
  intros Hclean Hv Hno Hfresh. pose proof Hclean as (Ha & Hn & Htx).
  rewrite (create_token_committed discord_id s (database s) (utcnow_calls s)
             (token_of_draw (urandom_calls s)) (S (urandom_calls s)));
    [|done|by rewrite Hn, Htx|done|by apply first_fresh_first|].
  2:{ key_free s Hno. }
  eexists. split; [reflexivity|].
  rewrite get_api_user_idle by done. cbn [transaction database].
  cbn [api_tokens issued add_event add_api_token set_events set_api_tokens].
  split_and!.
  - rewrite filter_app, filter_none, filter_cons_True by
      first [done | intros r Hr Heq; apply Hfresh; rewrite <- Heq;
                    by apply list_elem_of_fmap_2].
    done.
  - intros old Hold. rewrite !get_api_user_idle by done. cbn [transaction].
    cbn [api_tokens issued add_event add_api_token set_events set_api_tokens].
    rewrite Htx, filter_app, filter_cons_False, app_nil_r
      by (cbn; intros Heq; apply Hfresh; by rewrite Heq).
    by destruct (filter _ _).
  - unfold token_rows. cbn. rewrite filter_app, filter_cons_True by done.
    rewrite length_app. cbn. lia.
Qed.

(** The token issued when a user is created resolves back to the user:
    for an account without a [User] row whose audit events do not clash
    with the clock, when one of the 99 candidates is not a stored token,
    [create_user] succeeds, [get_api_token] answers a token, and
    [get_api_user] of that token answers the account. *)
Theorem create_user_token_round_trip discord_id s :
  clean s → valid_id discord_id → user_rows discord_id (database s) = [] →
  no_clash discord_id s →
  (∃ k, (k < 99)%nat ∧
        token_of_draw (urandom_calls s + k) ∉ stored_tokens (database s)) →
  ∃ s' token,
    create_user discord_id true true s = (Return tt, s') ∧
    get_api_token discord_id s' = (Return token, s') ∧
    get_api_user token s' = (Return discord_id, s') ∧
    token_rows discord_id (database s') ≠ [] ∧
    length (user_rows discord_id (database s')) = 1%nat.
Proof.
  intros Hclean Hv Hnew Hno (k & Hk & Hfresh).
  rewrite create_user_new by (by try apply user_rows_nil). cbn zeta.
  destruct (first_fresh_found 99 (urandom_calls s)
              (stored_tokens (revoked discord_id (2 + utcnow_calls s)
                 (created_user discord_id (utcnow_calls s) (database s)))) k Hk)
    as (token & d & Hff).
  { intros Hin. apply Hfresh. by apply (stored_tokens_without discord_id). }
  rewrite Hff. eexists _, token. split; [reflexivity|].
  rewrite get_api_token_idle, get_api_user_idle by done. cbn [transaction database].
  rewrite token_rows_issued, api_tokens_issued. split; [done|].
  apply first_fresh_Some in Hff as (Hnot & _).
  split_and!; [|done|].
  - rewrite filter_app, filter_cons_True by done.
    rewrite filter_none; [done|].
    intros r Hr Heq. apply Hnot. rewrite <- Heq.
    by apply (list_elem_of_fmap_2 ApiToken.token).
  - unfold user_rows in *. cbn. rewrite filter_app, Hnew.
    by rewrite filter_cons_True.
Qed.

(** ** Regenerating, seen from the database *)

Lemma insert_event_keeps_tokens now discord_id action tb tb' :
  insert_row now (NewEvent discord_id action) tb = inl tb' →
  api_tokens tb' = api_tokens tb.
Proof. unfold insert_row. repeat case_match; by intros [= <-]. Qed.

Lemma insert_api_token_row now discord_id token tb tb' :
  insert_row now (NewApiToken discord_id token) tb = inl tb' →
  api_tokens tb' = api_tokens tb ++ [ApiToken.mk discord_id token now].
Proof. unfold insert_row. repeat case_match; by intros [= <-]. Qed.

(** [regenerate_token] with [commit=True] is all or nothing in the
    database, whatever the clock and the random source return and
    whatever the call answers: either the database is the one from before
    the call, or the call succeeded and the account's [ApiToken] rows have
    been replaced by one row whose token no other row carries. *)
Theorem regenerate_token_all_or_nothing discord_id s :
  clean s →
  database (regenerate_token discord_id true s).2 = database s ∨
  ∃ token t,
    (regenerate_token discord_id true s).1 = Return tt ∧
    (token ∉ stored_tokens (without_tokens discord_id (database s))) ∧
    api_tokens (database (regenerate_token discord_id true s).2) =
    filter (λ r, ApiToken.discord_id r ≠ discord_id) (api_tokens (database s)) ++
    [ApiToken.mk discord_id token t].
Proof.
  intros (Ha & Hn & Htx).
  destruct (regenerate_token discord_id true s) as [r s'] eqn:Hrun. cbn [fst snd].
  rewrite regenerate_token_commit in Hrun. unfold bind at 1 in Hrun.
  unfold regenerate_token in Hrun. unfold bind at 1 in Hrun.
  rewrite revoke_token_deferred in Hrun by done.
  unfold bind at 1 in Hrun. rewrite Htx in Hrun.
  destruct (insert_row (utcnow (utcnow_calls s)) (NewEvent discord_id "TOKEN_REVOKE")
              (without_tokens discord_id (database s))) as [tb|e] eqn:Hrow.
  - erewrite create_token_deferred in Hrun; [|done|].
    2:{ cbn [session_new utcnow_calls transaction insert_all]. by rewrite Hrow. }
    cbn [database warnings urandom_calls] in Hrun.
    apply insert_event_keeps_tokens in Hrow.
    destruct (first_fresh 99 _ _) as [[token|] d] eqn:Hff.
    2:{ injection Hrun as <- <-. by left. }
    unfold when at 1, ret at 1 in Hrun. rewrite commit_active in Hrun by done.
    cbn [session_new utcnow_calls transaction database warnings urandom_calls insert_all]
      in Hrun.
    destruct (insert_row _ (NewApiToken _ _) tb) as [tb1|e1] eqn:Hrow1.
    2:{ injection Hrun as <- <-. by left. }
    destruct (insert_row _ (NewEvent _ _) tb1) as [tb2|e2] eqn:Hrow2.
    2:{ injection Hrun as <- <-. by left. }
    injection Hrun as <- <-.
    right. exists token, (utcnow (S (utcnow_calls s))). cbn [database].
    split; [done|]. split.
    + apply first_fresh_Some in Hff as [Hnot _].
      unfold stored_tokens in *. by rewrite Hrow in Hnot.
    + apply insert_event_keeps_tokens in Hrow2. apply insert_api_token_row in Hrow1.
      by rewrite Hrow2, Hrow1, Hrow.
  - left. unfold create_token in Hrun. unfold bind at 1 in Hrun.
    change (length (seq 1 99)) with 99%nat in Hrun.
    erewrite fresh_token_flush_error in Hrun; [|done|].
    2:{ cbn [session_new utcnow_calls transaction insert_all]. by rewrite Hrow. }
    by injection Hrun as <- <-.
Qed.

(** ** A session whose flush failed *)

Lemma session_flush_inactive s :
  session_active s = false → session_flush s = (Raise InvalidRequestError, s).
Proof. intros Ha. unfold session_flush. by rewrite Ha. Qed.

Lemma query_all_inactive {A} (table : Tables → list A) (P : A → Prop)
    `{∀ x, Decision (P x)} s :
  session_active s = false → query_all table P s = (Raise InvalidRequestError, s).
Proof. intros Ha. unfold query_all, bind. by rewrite session_flush_inactive. Qed.

Lemma query_delete_inactive {A} (table : Tables → list A) set_table (P : A → Prop)
    `{∀ x, Decision (P x)} s :
  session_active s = false →
  query_delete table set_table P s = (Raise InvalidRequestError, s).
Proof. intros Ha. unfold query_delete, bind. by rewrite session_flush_inactive. Qed.

Lemma create_token_inactive discord_id commit_ s :
  session_active s = false →
  create_token discord_id commit_ s = (Raise InvalidRequestError, (token_urlsafe s).2).
Proof.
  intros Ha. unfold create_token. unfold bind at 1.
  change (length (seq 1 99)) with 99%nat.
  unfold fresh_token; fold fresh_token. unfold bind at 1. unfold token_urlsafe.
  unfold bind at 1. by rewrite query_all_inactive.
Qed.

Lemma revoke_token_inactive discord_id commit_ s :
  session_active s = false →
  revoke_token discord_id commit_ s = (Raise InvalidRequestError, s).
Proof. intros Ha. unfold revoke_token, bind. by rewrite query_delete_inactive. Qed.

Lemma regenerate_token_inactive discord_id commit_ s :
  session_active s = false →
  regenerate_token discord_id commit_ s = (Raise InvalidRequestError, s).
Proof. intros Ha. unfold regenerate_token, bind. by rewrite revoke_token_inactive. Qed.

Lemma register_event_inactive discord_id action commit_ s :
  session_active s = false →
  register_event discord_id action commit_ s =
  (if commit_ then Raise InvalidRequestError else Return tt,
   (session_add (NewEvent discord_id action) s).2).
Proof.
  intros Ha. unfold register_event, bind, when. unfold session_add at 1.
  destruct commit_; [|done]. unfold try_except. by rewrite commit_inactive.
Qed.

Lemma create_user_inactive discord_id generate_token commit_ s :
  session_active s = false →
  create_user discord_id generate_token commit_ s =
  (if commit_ || generate_token then Raise InvalidRequestError else Return tt,
   (session_add (NewEvent discord_id "USER_CREATE")
      (session_add (NewUser discord_id) s).2).2).
Proof.
  intros Ha. unfold create_user. unfold bind at 1. unfold session_add at 1.
  unfold bind at 1. rewrite register_event_inactive by done.
  destruct commit_; [done|]. destruct generate_token.
  - unfold when at 1. unfold bind at 1. by rewrite regenerate_token_inactive.
  - done.
Qed.

(** After a flush has failed inside a lookup or a bulk DELETE, the
    session is unusable and no method of [Schema] repairs it: the lookups,
    [commit] and the methods that read or delete raise
    [InvalidRequestError], and after any call the session is still
    unusable and the database unchanged. *)
Theorem inactive_session_stays_inactive s :
  session_active s = false →
  (∀ token, get_api_user token s = (Raise InvalidRequestError, s)) ∧
  (∀ discord_id, get_api_token discord_id s = (Raise InvalidRequestError, s)) ∧
  commit s = (Raise InvalidRequestError, s) ∧
  (∀ discord_id generate_token commit_,
     ensure_user discord_id generate_token commit_ s = (Raise InvalidRequestError, s)) ∧
  (∀ discord_id commit_,
     revoke_token discord_id commit_ s = (Raise InvalidRequestError, s)) ∧
  (∀ discord_id commit_,
     regenerate_token discord_id commit_ s = (Raise InvalidRequestError, s)) ∧
  (∀ discord_id commit_,
     delete_user discord_id commit_ s = (Raise InvalidRequestError, s)) ∧
  (∀ discord_id token commit_,
     set_auth_discord discord_id token commit_ s = (Raise InvalidRequestError, s)) ∧
  (∀ discord_id commit_,
     (create_token discord_id commit_ s).1 = Raise InvalidRequestError) ∧
  (∀ discord_id generate_token,
     (create_user discord_id generate_token true s).1 = Raise InvalidRequestError) ∧
  (∀ c, session_active (after c s) = false ∧ database (after c s) = database s).
Proof.
  intros Ha.
  assert (∀ token, get_api_user token s = (Raise InvalidRequestError, s)) as Huser.
  { intros. unfold get_api_user, bind. by rewrite query_all_inactive. }
  assert (∀ discord_id, get_api_token discord_id s = (Raise InvalidRequestError, s))
    as Htoken.
  { intros. unfold get_api_token, bind. by rewrite query_all_inactive. }
  assert (∀ discord_id generate_token commit_,
            ensure_user discord_id generate_token commit_ s
            = (Raise InvalidRequestError, s)) as Hensure.
  { intros. unfold ensure_user, bind. by rewrite query_all_inactive. }
  assert (∀ discord_id commit_,
            delete_user discord_id commit_ s = (Raise InvalidRequestError, s))
    as Hdelete.
  { intros. unfold delete_user, bind. by rewrite query_delete_inactive. }
  assert (∀ discord_id token commit_,
            set_auth_discord discord_id token commit_ s
            = (Raise InvalidRequestError, s)) as Hauth.
  { intros. unfold set_auth_discord, bind. by rewrite query_delete_inactive. }
  split_and!; try done.
  - by apply commit_inactive.
  - intros. by apply revoke_token_inactive.
  - intros. by apply regenerate_token_inactive.
  - intros. by rewrite create_token_inactive.
  - intros. by rewrite create_user_inactive.
  - intros c. destruct c; cbn [after];
      rewrite ?Hensure, ?Hdelete, ?Huser, ?Htoken, ?Hauth, ?revoke_token_inactive,
        ?regenerate_token_inactive, ?create_token_inactive, ?commit_inactive,
        ?create_user_inactive, ?register_event_inactive by done;
      done.
Qed.

(** ** Calls that answer as if nothing had happened *)

(** [revoke_token] in the tick of the clock in which the account already
    has a [TOKEN_REVOKE] event: the call returns normally, with a warning,
    and the database, the tokens of the account included, is as before. *)
Theorem revoke_token_clash_is_silent discord_id s :
  clean s → valid_id discord_id →
  (discord_id, "TOKEN_REVOKE", utcnow (utcnow_calls s))
    ∈ Event.key <$> events (database s) →
  revoke_token discord_id true s =
  (Return tt,
   mkSchema (database s) (database s) [] true
            (warnings s ++ ["Attempting to commit events too quickly!"])
            (S (utcnow_calls s)) (urandom_calls s)).
Proof. intros Hclean Hv Hkey. rewrite revoke_token_clean by done. by rewrite decide_True. Qed.

(** [delete_user] in the tick of the clock in which the account already
    has a [USER_DELETE] event: the call returns normally, with a warning,
    and the [User] row is still there. *)
Theorem delete_user_clash_is_silent discord_id s :
  clean s → valid_id discord_id →
  (discord_id, "USER_DELETE", utcnow (utcnow_calls s))
    ∈ Event.key <$> events (database s) →
  delete_user discord_id true s =
  (Return tt,
   mkSchema (database s) (database s) [] true
            (warnings s ++ ["Attempting to commit events too quickly!"])
            (S (utcnow_calls s)) (urandom_calls s)).
Proof. intros Hclean Hv Hkey. rewrite delete_user_clean by done. by rewrite decide_True. Qed.

(** ** Provider tokens, seen from the database *)

Lemma insert_auth_token_row now discord_id provider token tb tb' :
  insert_row now (NewAuthToken discord_id provider token) tb = inl tb' →
  tb' = add_auth_token (AuthToken.mk discord_id provider token now) tb.
Proof. unfold insert_row. repeat case_match; by intros [= <-]. Qed.

Lemma insert_event_row now discord_id action tb tb' :
  insert_row now (NewEvent discord_id action) tb = inl tb' →
  tb' = add_event (Event.mk discord_id action now) tb.
Proof. unfold insert_row. repeat case_match; by intros [= <-]. Qed.

(** [set_auth_discord] with [commit=True] is all or nothing in the
    database, whatever the clock returns and whatever the call answers:
    either the database is the one from before the call, or the call
    succeeded, the [AuthToken] rows of the account have been replaced by
    the new [DISCORD] row and the [AUTHENTICATE_DISCORD] event has been
    appended. *)
Theorem set_auth_discord_all_or_nothing discord_id token s :
  clean s →
  database (set_auth_discord discord_id token true s).2 = database s ∨
  ∃ t t',
    (set_auth_discord discord_id token true s).1 = Return tt ∧
    auth_tokens (database (set_auth_discord discord_id token true s).2) =
    filter (λ r, AuthToken.discord_id r ≠ discord_id) (auth_tokens (database s)) ++
    [AuthToken.mk discord_id "DISCORD" token t] ∧
    events (database (set_auth_discord discord_id token true s).2) =
    events (database s) ++ [Event.mk discord_id "AUTHENTICATE_DISCORD" t'].
Proof.
  intros (Ha & Hn & Htx).
  destruct (set_auth_discord discord_id token true s) as [r s'] eqn:Hrun. cbn [fst snd].
  unfold set_auth_discord in Hrun. unfold bind at 1 in Hrun.
  rewrite query_delete_active in Hrun by done. rewrite Hn, Htx in Hrun.
  cbn [insert_all] in Hrun. unfold bind at 1, session_add at 1 in Hrun.
  unfold bind at 1 in Hrun. unfold register_event in Hrun.
  unfold bind at 1, session_add at 1, when at 1, ret at 1 in Hrun.
  unfold when in Hrun. rewrite commit_active in Hrun by done.
  cbn [session_new utcnow_calls transaction database warnings urandom_calls insert_all app]
    in Hrun.
  destruct (insert_row _ (NewAuthToken _ _ _) _) as [tb1|e1] eqn:Hrow1.
  2:{ injection Hrun as <- <-. by left. }
  destruct (insert_row _ (NewEvent _ _) tb1) as [tb2|e2] eqn:Hrow2.
  2:{ injection Hrun as <- <-. by left. }
  injection Hrun as <- <-. right.
  apply insert_event_row in Hrow2. apply insert_auth_token_row in Hrow1. subst.
  by eexists _, _.
Qed.

(** ** The format of a token *)

(** A generated token has 64 characters, none of them the padding
    character, and so fits the [token] column of 64 characters. *)
Theorem token_fits_column d :
  String.length (token_of_draw d) = 64%nat ∧
  no_pad (token_of_draw d) ∧
  fits 64 (token_of_draw d) = true.
Proof.
  split; [apply token_of_draw_length|]. split; [|apply token_of_draw_fits].
  unfold token_of_draw.
  destruct (urlsafe_b64encode_triples 16 (token_bytes 48 d)) as [Hl Hp].
  { unfold token_bytes. by rewrite length_fmap, length_seq. }
  by rewrite rstrip_eq_no_pad.
Qed.

End Methods.

(** * Runs *)

Ltac by_computation := apply (bool_decide_unpack _); vm_compute; exact I.

Ltac no_stored_event :=
  let He := fresh "He" in
  let Hk := fresh "Hk" in
  intros ? ? He ? Hk; vm_compute in He; vm_compute in Hk;
  repeat (apply elem_of_cons in He as [->|He]); try (by apply elem_of_nil in He);
  first [discriminate | cbn; lia].

Section Ticking.

#[local] Existing Instance ticking_world.

(** C1.  Two calls of [create_user] for account 42 on an empty store, the
    clock ticking: the second call also answers without an error.  Its
    INSERT of the [User] row failed inside [register_event], which warned;
    the call then went on to replace the account's token.  One [User] row
    is stored. *)
Theorem create_user_twice_no_error :
  let s1 := (create_user "42" true true init).2 in
  let s2 := (create_user "42" true true s1).2 in
  (create_user "42" true true init).1 = Return tt ∧
  (create_user "42" true true s1).1 = Return tt ∧
  length (user_rows "42" (database s2)) = 1%nat ∧
  warnings s2 = ["Attempting to commit events too quickly!"] ∧
  stored_tokens (database s1) = [token_of_draw 0] ∧
  stored_tokens (database s2) = [token_of_draw 1].
Proof. cbv zeta. split_and!; vm_compute; reflexivity. Qed.

(** C4.  [set_auth_discord] for account 42, which holds a token of another
    provider: the call succeeds and the row of the other provider is gone;
    the row of account 7 is still there. *)
Theorem set_auth_discord_drops_other_provider :
  let s' := (set_auth_discord "42" "d1" true two_providers).2 in
  (set_auth_discord "42" "d1" true two_providers).1 = Return tt ∧
  (AuthToken.mk "42" "GITHUB" "gh-secret" 0 ∈ auth_tokens (database two_providers)) ∧
  (AuthToken.mk "42" "GITHUB" "gh-secret" 0 ∉ auth_tokens (database s')) ∧
  AuthToken.key <$> auth_tokens (database s') =
  [("7", "DISCORD", "seven"); ("42", "DISCORD", "d1")].
Proof.
  cbv zeta. split; [vm_compute; reflexivity|]. split; [by left|].
  split; [|vm_compute; reflexivity].
  vm_compute. intros Hin.
  repeat (apply elem_of_cons in Hin as [Hin|Hin]; [discriminate|]).
  by apply elem_of_nil in Hin.
Qed.

(** C8 fails for an account that was deleted: its token is still stored,
    and after [create_user] with [generate_token=False] the lookup answers
    that token. *)
Lemma get_api_token_after_delete :
  let s1 := (create_user "42" true true init).2 in
  let s2 := (delete_user "42" true s1).2 in
  let s3 := (create_user "42" false true s2).2 in
  valid_id "42" ∧ clean s2 ∧ user_rows "42" (database s2) = [] ∧
  (create_user "42" false true s2).1 = Return tt ∧
  get_api_token "42" s3 = (Return (token_of_draw 0), s3).
Proof.
  cbv zeta. unfold clean. split; [unfold valid_id; cbn; lia|].
  split_and!; vm_compute; reflexivity.
Qed.

(** [revoke_token_without_token] on the empty store. *)
Lemma revoke_token_without_token_witness :
  ∃ s', revoke_token "42" true init = (Return tt, s') ∧
        api_tokens (database s') = [] ∧
        events (database s') = [Event.mk "42" "TOKEN_REVOKE" 0].
Proof.
  destruct (revoke_token_without_token "42" init) as (s' & Hrun & Hdb & _ & _ & Hev).
  - done.
  - unfold valid_id. cbn. lia.
  - reflexivity.
  - exists s'. split; [exact Hrun|]. split; [exact Hdb|].
    apply Hev. apply not_elem_of_nil.
Defined.

(** [create_user_then_get_api_token] for account 42 on the empty store. *)
Lemma create_user_then_get_api_token_witness :
  (∃ s1 token, create_user "42" true true init = (Return tt, s1) ∧
               get_api_token "42" s1 = (Return token, s1) ∧ token ≠ "") ∧
  (∃ s1, create_user "42" false true init = (Return tt, s1) ∧
         get_api_token "42" s1 = (Raise KeyError, s1)).
Proof.
  destruct (create_user_then_get_api_token "42" init) as [Hgen Hnogen].
  - done.
  - unfold valid_id. cbn. lia.
  - reflexivity.
  - no_stored_event.
  - split.
    + apply Hgen. exists 0%nat. split; [lia|]. apply not_elem_of_nil.
    + apply Hnogen. reflexivity.
Defined.



End Ticking.

Section SameSecond.

#[local] Existing Instance same_second.



(** C7.  [revoke_token] for account 42, called in the tick of the clock
    in which the token was created: the duplicate [TOKEN_REVOKE] event is
    answered by a warning and the call returns without an error, but the
    operation it belongs to is undone: the token that was to be deleted
    is still stored and still resolves. *)
Lemma revoke_token_rolled_back :
  let s1 := (create_user "42" true true init).2 in
  let s2 := (revoke_token "42" true s1).2 in
  (revoke_token "42" true s1).1 = Return tt ∧
  warnings s2 = ["Attempting to commit events too quickly!"] ∧
  stored_tokens (database s2) = [token_of_draw 0] ∧
  get_api_user (token_of_draw 0) s2 = (Return "42", s2).
Proof. cbv zeta. split_and!; vm_compute; reflexivity. Qed.


(** [register_event_duplicate_swallowed] after the DELETE of
    [revoke_token], in the tick in which the token was created: the
    DELETE is undone. *)
Lemma register_event_duplicate_swallowed_witness :
  let s1 := (create_user "42" true true init).2 in
  let s := (query_delete api_tokens set_api_tokens
              (λ r, ApiToken.discord_id r = "42") s1).2 in
  stored_tokens (database s) = [token_of_draw 0] ∧
  stored_tokens (transaction s) = [] ∧
  ∃ s', register_event "42" "TOKEN_REVOKE" true s = (Return tt, s') ∧
        warnings s' = warnings s ++ ["Attempting to commit events too quickly!"] ∧
        database s' = database s ∧ transaction s' = database s ∧
        session_new s' = [] ∧ session_active s' = true.
Proof.
  cbv zeta. split; [vm_compute; reflexivity|]. split; [vm_compute; reflexivity|].
  apply (register_event_duplicate_swallowed "42" "TOKEN_REVOKE").
  apply commit_duplicate_event.
  - vm_compute. reflexivity.
  - vm_compute. reflexivity.
  - unfold valid_id. cbn. lia.
  - vm_compute. reflexivity.
  - by_computation.
Defined.

End SameSecond.

Section TwoReadsASecond.

#[local] Existing Instance two_reads_a_second.


End TwoReadsASecond.

Section Stuck.

#[local] Existing Instance stuck_random.

(** [create_user_not_atomic] when every draw gives the token that account
    7 holds. *)
Lemma create_user_not_atomic_witness :
  let s := (create_user "7" true true init).2 in
  ∃ s',
    create_user "42" true true s = (Raise RuntimeError, s') ∧
    (∃ t, User.mk "42" t ∈ users (database s')) ∧
    (∃ t, Event.mk "42" "USER_CREATE" t ∈ events (database s')) ∧
    token_rows "42" (transaction s') = [] ∧
    api_tokens (database s') = api_tokens (database s).
Proof.
  cbv zeta. apply (create_user_not_atomic "42").
  - unfold clean. split_and!; vm_compute; reflexivity.
  - unfold valid_id. cbn. lia.
  - by_computation.
  - no_stored_event.
  - intros k _. vm_compute. left.
Defined.

(** [create_token_retries]: 99 collisions with the token of account 7,
    and acceptance of the first candidate on the empty store. *)
Lemma create_token_retries_witness :
  let s := (create_user "7" true true init).2 in
  create_token "42" true s =
  (Raise RuntimeError,
   mkSchema (database s) (transaction s) [] true (warnings s) (utcnow_calls s)
            (urandom_calls s + 99)) ∧
  ∃ s' t, create_token "42" true init = (Return tt, s') ∧
          api_tokens (database s') = [ApiToken.mk "42" (token_of_draw 0) t] ∧
          urandom_calls s' = 1%nat.
Proof.
  cbv zeta. split.
  - destruct (create_token_retries "42" (create_user "7" true true init).2
                (transaction (create_user "7" true true init).2)
                (utcnow_calls (create_user "7" true true init).2))
      as [Hexhausted _].
    + vm_compute. reflexivity.
    + vm_compute. reflexivity.
    + apply Hexhausted. intros k _. vm_compute. left.
  - destruct (create_token_retries "42" init no_tables 0) as [_ Haccepted]; [done..|].
    destruct (Haccepted 0%nat) as [_ Hcommitted].
    + lia.
    + intros j Hj. lia.
    + apply not_elem_of_nil.
    + apply Hcommitted.
      * unfold valid_id. cbn. lia.
      * intros i _. apply not_elem_of_nil.
Defined.

End Stuck.

(** * More runs *)

Section TickingRuns.

#[local] Existing Instance ticking_world.

(** [deferred_call_commits_nothing] for a [regenerate_token] with
    [commit=False] after [create_user] for account 42. *)
Lemma deferred_call_commits_nothing_witness :
  let s1 := (create_user "42" true true init).2 in
  database (after (RegenerateToken "42" false) s1) = database s1.
Proof.
  cbv zeta. apply (deferred_call_commits_nothing (RegenerateToken "42" false)).
  reflexivity.
Defined.

(** [commit_leaves_clean_session] with a second [User] object for
    account 42 pending: the commit raises and the session is clean. *)
Lemma commit_leaves_clean_session_witness :
  let s := (session_add (NewUser "42") (create_user "42" true true init).2).2 in
  match commit s with
  | (Return _, s') => clean s' ∧ warnings s' = warnings s
  | (Raise e, s') =>
      is_StatementError e = true ∧ clean s' ∧ database s' = database s ∧
      warnings s' = warnings s
  end.
Proof.
  cbv zeta.
  apply (commit_leaves_clean_session
           (session_add (NewUser "42") (create_user "42" true true init).2).2).
  vm_compute. reflexivity.
Defined.

(** [get_api_user_finds] after [create_user] for account 42. *)
Lemma get_api_user_finds_witness :
  let s1 := (create_user "42" true true init).2 in
  get_api_user "unknown" s1 = (Raise KeyError, s1) ∧
  ∃ discord_id, get_api_user (token_of_draw 0) s1 = (Return discord_id, s1) ∧
                (discord_id, token_of_draw 0) ∈ ApiToken.key <$> api_tokens (transaction s1).
Proof.
  cbv zeta. split.
  - apply (get_api_user_finds "unknown" (create_user "42" true true init).2).
    + vm_compute. reflexivity.
    + vm_compute. reflexivity.
    + by_computation.
  - apply (get_api_user_finds (token_of_draw 0) (create_user "42" true true init).2).
    + vm_compute. reflexivity.
    + vm_compute. reflexivity.
    + by_computation.
Defined.

(** [get_api_token_finds] after [create_user] for account 42. *)
Lemma get_api_token_finds_witness :
  let s1 := (create_user "42" true true init).2 in
  get_api_token "7" s1 = (Raise KeyError, s1) ∧
  ∃ token, get_api_token "42" s1 = (Return token, s1) ∧
           ("42", token) ∈ ApiToken.key <$> api_tokens (transaction s1).
Proof.
  cbv zeta. split.
  - apply (get_api_token_finds "7" (create_user "42" true true init).2).
    + vm_compute. reflexivity.
    + vm_compute. reflexivity.
    + vm_compute. reflexivity.
  - apply (get_api_token_finds "42" (create_user "42" true true init).2).
    + vm_compute. reflexivity.
    + vm_compute. reflexivity.
    + by_computation.
Defined.

(** [delete_user_keeps_tokens] after [create_user] for account 42: the
    user is gone and its token resolves. *)
Lemma delete_user_keeps_tokens_witness :
  let s1 := (create_user "42" true true init).2 in
  ∃ s', delete_user "42" true s1 = (Return tt, s') ∧
        user_rows "42" (database s') = [] ∧
        stored_tokens (database s') = [token_of_draw 0] ∧
        (get_api_user (token_of_draw 0) s').1 = Return "42".
Proof.
  cbv zeta.
  destruct (delete_user_keeps_tokens "42" (create_user "42" true true init).2)
    as (s' & Hrun & Huser & _ & Htokens & _ & _ & Hresolve & _).
  - unfold clean. split_and!; vm_compute; reflexivity.
  - unfold valid_id. cbn. lia.
  - no_stored_event.
  - exists s'. split; [exact Hrun|]. split; [exact Huser|]. split.
    + unfold stored_tokens. rewrite Htokens. vm_compute. reflexivity.
    + rewrite Hresolve. vm_compute. reflexivity.
Defined.

(** [revoke_token_removes_account_tokens] for account 42 when account 7
    holds a token as well. *)
Lemma revoke_token_removes_account_tokens_witness :
  let s := (create_user "42" true true (create_user "7" true true init).2).2 in
  ∃ s', revoke_token "42" true s = (Return tt, s') ∧
        token_rows "42" (database s') = [] ∧
        stored_tokens (database s') = [token_of_draw 0] ∧
        get_api_token "42" s' = (Raise KeyError, s').
Proof.
  cbv zeta.
  destruct (revoke_token_removes_account_tokens "42"
              (create_user "42" true true (create_user "7" true true init).2).2)
    as (s' & Hrun & Htokens & Hrows & _ & Hlookup).
  - unfold clean. split_and!; vm_compute; reflexivity.
  - unfold valid_id. cbn. lia.
  - no_stored_event.
  - exists s'. split; [exact Hrun|]. split; [exact Hrows|]. split; [|exact Hlookup].
    unfold stored_tokens. rewrite Htokens. vm_compute. reflexivity.
Defined.

(** [create_token_keeps_older_tokens] for account 42, which holds a
    token: afterwards it holds two. *)
Lemma create_token_keeps_older_tokens_witness :
  let s1 := (create_user "42" true true init).2 in
  ∃ s', create_token "42" true s1 = (Return tt, s') ∧
        get_api_user (token_of_draw (urandom_calls s1)) s' = (Return "42", s') ∧
        (get_api_user (token_of_draw 0) s').1 = Return "42" ∧
        length (token_rows "42" (database s')) = 2%nat.
Proof.
  cbv zeta.
  destruct (create_token_keeps_older_tokens "42" (create_user "42" true true init).2)
    as (s' & Hrun & Hnew & Hold & Hlen).
  - unfold clean. split_and!; vm_compute; reflexivity.
  - unfold valid_id. cbn. lia.
  - no_stored_event.
  - by_computation.
  - exists s'. split; [exact Hrun|]. split; [exact Hnew|]. split.
    + rewrite Hold; [vm_compute; reflexivity|by_computation].
    + rewrite Hlen. vm_compute. reflexivity.
Defined.

(** [create_user_token_round_trip] for account 42 on the empty store. *)
Lemma create_user_token_round_trip_witness :
  ∃ s' token,
    create_user "42" true true init = (Return tt, s') ∧
    get_api_token "42" s' = (Return token, s') ∧
    get_api_user token s' = (Return "42", s') ∧
    token_rows "42" (database s') ≠ [] ∧
    length (user_rows "42" (database s')) = 1%nat.
Proof.
  apply (create_user_token_round_trip "42" init).
  - done.
  - unfold valid_id. cbn. lia.
  - reflexivity.
  - no_stored_event.
  - exists 0%nat. split; [lia|]. apply not_elem_of_nil.
Defined.

(** [regenerate_token_all_or_nothing] after [create_user] for account
    42, the clock ticking: the second case. *)
Lemma regenerate_token_all_or_nothing_witness :
  let s1 := (create_user "42" true true init).2 in
  ∃ token t,
    (regenerate_token "42" true s1).1 = Return tt ∧
    (token ∉ stored_tokens (without_tokens "42" (database s1))) ∧
    api_tokens (database (regenerate_token "42" true s1).2) =
    filter (λ r, ApiToken.discord_id r ≠ "42") (api_tokens (database s1)) ++
    [ApiToken.mk "42" token t].
Proof.
  cbv zeta.
  destruct (regenerate_token_all_or_nothing "42" (create_user "42" true true init).2)
    as [Hsame|Hreplaced].
  - unfold clean. split_and!; vm_compute; reflexivity.
  - vm_compute in Hsame. discriminate Hsame.
  - exact Hreplaced.
Defined.

(** [create_user_duplicate_swallowed] for a second [create_user] of
    account 42. *)
Lemma create_user_duplicate_swallowed_witness :
  let s1 := (create_user "42" true true init).2 in
  (create_user "42" false true s1).1 = Return tt ∧
  database (create_user "42" false true s1).2 = database s1 ∧
  warnings (create_user "42" false true s1).2 =
  ["Attempting to commit events too quickly!"].
Proof.
  cbv zeta.
  rewrite (create_user_duplicate_swallowed "42" (create_user "42" true true init).2).
  - split_and!; vm_compute; reflexivity.
  - unfold clean. split_and!; vm_compute; reflexivity.
  - unfold valid_id. cbn. lia.
  - by_computation.
Defined.

(** [set_auth_discord_replaces_account_rows] for account 42, which holds
    a token of another provider. *)
Lemma set_auth_discord_replaces_account_rows_witness :
  ∃ s' t,
    set_auth_discord "42" "d1" true two_providers = (Return tt, s') ∧
    auth_tokens (database s') =
    filter (λ r, AuthToken.discord_id r ≠ "42") (auth_tokens (database two_providers)) ++
    [AuthToken.mk "42" "DISCORD" "d1" t].
Proof.
  apply (set_auth_discord_replaces_account_rows "42" "d1" two_providers).
  - unfold clean. split_and!; vm_compute; reflexivity.
  - unfold valid_id. cbn. lia.
  - unfold valid_auth_token. cbn. lia.
  - no_stored_event.
Defined.

(** [set_auth_discord_all_or_nothing] for account 42, which holds a token
    of another provider. *)
Lemma set_auth_discord_all_or_nothing_witness :
  database (set_auth_discord "42" "d1" true two_providers).2 = database two_providers ∨
  ∃ t t',
    (set_auth_discord "42" "d1" true two_providers).1 = Return tt ∧
    auth_tokens (database (set_auth_discord "42" "d1" true two_providers).2) =
    filter (λ r, AuthToken.discord_id r ≠ "42") (auth_tokens (database two_providers)) ++
    [AuthToken.mk "42" "DISCORD" "d1" t] ∧
    events (database (set_auth_discord "42" "d1" true two_providers).2) =
    events (database two_providers) ++ [Event.mk "42" "AUTHENTICATE_DISCORD" t'].
Proof.
  apply (set_auth_discord_all_or_nothing "42" "d1" two_providers).
  unfold clean. split_and!; vm_compute; reflexivity.
Defined.

(** [token_scenario] for account 42, the clock ticking. *)
Lemma token_scenario_witness :
  ∃ s1 s2,
    create_user "42" true true init = (Return tt, s1) ∧
    get_api_token "42" s1 = (Return (token_of_draw 0), s1) ∧
    regenerate_token "42" true s1 = (Return tt, s2) ∧
    get_api_token "42" s2 = (Return (token_of_draw 1), s2) ∧
    get_api_user (token_of_draw 0) s2 = (Raise KeyError, s2) ∧
    get_api_user (token_of_draw 1) s2 = (Return "42", s2).
Proof.
  apply (token_scenario "42").
  - unfold valid_id. cbn. lia.
  - intros m n _ Hlt. cbn. lia.
  - by_computation.
Defined.

End TickingRuns.

Section SameSecondRuns.

#[local] Existing Instance same_second.

(** [regenerate_token_event_clash] in the tick in which the token of
    account 42 was created. *)
Lemma regenerate_token_event_clash_witness :
  let s1 := (create_user "42" true true init).2 in
  (regenerate_token "42" true s1).1 = Raise IntegrityError ∧
  session_active (regenerate_token "42" true s1).2 = false ∧
  database (regenerate_token "42" true s1).2 = database s1.
Proof.
  cbv zeta.
  rewrite (regenerate_token_event_clash "42" true (create_user "42" true true init).2).
  - done.
  - unfold clean. split_and!; vm_compute; reflexivity.
  - unfold valid_id. cbn. lia.
  - by_computation.
Defined.

(** [inactive_session_stays_inactive] for the session that the failed
    [regenerate_token] leaves. *)
Lemma inactive_session_stays_inactive_witness :
  let s := (regenerate_token "42" true (create_user "42" true true init).2).2 in
  get_api_token "42" s = (Raise InvalidRequestError, s) ∧
  commit s = (Raise InvalidRequestError, s) ∧
  session_active (after (CreateUser "43" true true) s) = false ∧
  database (after (CreateUser "43" true true) s) = database s.
Proof.
  cbv zeta.
  destruct (inactive_session_stays_inactive
              (regenerate_token "42" true (create_user "42" true true init).2).2)
    as (_ & Htoken & Hcommit & _ & _ & _ & _ & _ & _ & _ & Hafter).
  - vm_compute. reflexivity.
  - split; [apply Htoken|]. split; [exact Hcommit|]. apply Hafter.
Defined.

(** [revoke_token_clash_is_silent] in the tick in which the token of
    account 42 was created. *)
Lemma revoke_token_clash_is_silent_witness :
  let s1 := (create_user "42" true true init).2 in
  (revoke_token "42" true s1).1 = Return tt ∧
  database (revoke_token "42" true s1).2 = database s1 ∧
  warnings (revoke_token "42" true s1).2 = ["Attempting to commit events too quickly!"].
Proof.
  cbv zeta.
  rewrite (revoke_token_clash_is_silent "42" (create_user "42" true true init).2).
  - split_and!; vm_compute; reflexivity.
  - unfold clean. split_and!; vm_compute; reflexivity.
  - unfold valid_id. cbn. lia.
  - by_computation.
Defined.

(** [delete_user_clash_is_silent] for account 42, in the tick in which a
    [USER_DELETE] event was registered for it. *)
Lemma delete_user_clash_is_silent_witness :
  let s := (register_event "42" "USER_DELETE" true (create_user "42" true true init).2).2 in
  (delete_user "42" true s).1 = Return tt ∧
  database (delete_user "42" true s).2 = database s ∧
  length (user_rows "42" (database (delete_user "42" true s).2)) = 1%nat.
Proof.
  cbv zeta.
  rewrite (delete_user_clash_is_silent "42"
             (register_event "42" "USER_DELETE" true (create_user "42" true true init).2).2).
  - split_and!; vm_compute; reflexivity.
  - unfold clean. split_and!; vm_compute; reflexivity.
  - unfold valid_id. cbn. lia.
  - by_computation.
Defined.

End SameSecondRuns.
